(** * AQI computation core of [app.py]

    A shallow embedding of the index computation of the air-quality
    dashboard: the breakpoint tables and the piecewise-linear sub-index
    ([calculate_aqi_subindex]), the severity classifier
    ([get_aqi_category]) and the data-frame pipeline of
    [update_info_panel] that selects the latest reading per parameter and
    takes the maximum of the sub-indices.

    Numbers.  Concentrations are modelled as exact rationals [Q]: the
    decimal literals of the tables (12.1, 35.4, ...) denote themselves and
    the arithmetic of the interpolation is exact.  Sub-indices are
    integers [Z]; [round] is Python's rounding of a number to the nearest
    integer, halves going to the even neighbour.

    Exceptions.  A Python function either returns or raises; the
    embedding makes that explicit with the type [outcome]. *)

From Stdlib Require Import ZArith QArith Qround Lqa Lia String List DecimalString.
From stdpp Require Import gmap strings list sorting.

Open Scope string_scope.
Open Scope Z_scope.

(** ** Outcomes of a Python call *)

Inductive exn : Set :=
  | ZeroDivisionError
  | IndexError.

Inductive outcome (A : Type) : Type :=
  | Return (a : A)
  | Raise (e : exn).

Arguments Return {A} a.
Arguments Raise {A} e.

#[global] Instance outcome_ret : MRet outcome := fun A a => Return a.

#[global] Instance outcome_bind : MBind outcome := fun A B k m =>
  match m with
  | Return a => k a
  | Raise e => Raise e
  end.

#[global] Instance outcome_fmap : FMap outcome := fun A B f m =>
  match m with
  | Return a => Return (f a)
  | Raise e => Raise e
  end.

(** ** Rounding: Python's [round(x)] on a number, half to even *)

Definition round (x : Q) : Z :=
  let f := Qfloor x in
  match (x - inject_Z f ?= 1 # 2)%Q with
  | Lt => f
  | Gt => f + 1
  | Eq => if Z.even f then f else f + 1
  end.

(** ** Breakpoint tables *)

(** One band [(Clow, Chigh, Ilow, Ihigh)] of a table. *)
Record Breakpoint : Set := BP {
  Clow : Q;
  Chigh : Q;
  Ilow : Z;
  Ihigh : Z
}.

Definition PM25_table : list Breakpoint :=
  [ BP 0.0 12.0 0 50;
    BP 12.1 35.4 51 100;
    BP 35.5 55.4 101 150;
    BP 55.5 150.4 151 200;
    BP 150.5 250.4 201 300;
    BP 250.5 350.4 301 400;
    BP 350.5 500.4 401 500 ].

Definition PM10_table : list Breakpoint :=
  [ BP 0 54 0 50;
    BP 55 154 51 100;
    BP 155 254 101 150;
    BP 255 354 151 200;
    BP 355 424 201 300;
    BP 425 504 301 400;
    BP 505 604 401 500 ].

Definition CO_table : list Breakpoint :=
  [ BP 0.0 4.4 0 50;
    BP 4.5 9.4 51 100;
    BP 9.5 12.4 101 150;
    BP 12.5 15.4 151 200;
    BP 15.5 30.4 201 300;
    BP 30.5 40.4 301 400;
    BP 40.5 50.4 401 500 ].

Definition O3_table : list Breakpoint :=
  [ BP 0 54 0 50;
    BP 55 70 51 100;
    BP 71 85 101 150;
    BP 86 105 151 200;
    BP 106 200 201 300 ].

Definition NO2_table : list Breakpoint :=
  [ BP 0 53 0 50;
    BP 54 100 51 100;
    BP 101 360 101 150;
    BP 361 649 151 200;
    BP 650 1249 201 300;
    BP 1250 1649 301 400;
    BP 1650 2049 401 500 ].

Definition SO2_table : list Breakpoint :=
  [ BP 0 35 0 50;
    BP 36 75 51 100;
    BP 76 185 101 150;
    BP 186 304 151 200;
    BP 305 604 201 300;
    BP 605 804 301 400;
    BP 805 1004 401 500 ].

(** The entries of the dict literal [breakpoints], in source order. *)
Definition breakpoints_items : list (string * list Breakpoint) :=
  [ ("PM2.5", PM25_table);
    ("PM10", PM10_table);
    ("CO", CO_table);
    ("O3", O3_table);
    ("NO2", NO2_table);
    ("SO2", SO2_table) ].

Definition breakpoints : gmap string (list Breakpoint) :=
  list_to_map breakpoints_items.

(** ** [calculate_aqi_subindex] *)

(** The factor [(Ihigh - Ilow) / (Chigh - Clow)] of the interpolation. *)
Definition slope (b : Breakpoint) : Q :=
  (inject_Z (Ihigh b - Ilow b) / (Chigh b - Clow b))%Q.

(** The interpolation
    [((Ihigh - Ilow) / (Chigh - Clow)) * (value - Clow) + Ilow];
    Python's division raises when the divisor is zero. *)
Definition interpolate (b : Breakpoint) (value : Q) : outcome Q :=
  if Qeq_bool (Chigh b - Clow b) 0 then Raise ZeroDivisionError
  else Return (slope b * (value - Clow b) + inject_Z (Ilow b))%Q.

(** What a matching band returns: the two lines
    [subindex = ...; return round(subindex)] shared by both branches. *)
Definition band_result (b : Breakpoint) (value : Q) : outcome Z :=
  subindex ← interpolate b value; Return (round subindex).

(** The body of the [for i, (...) in enumerate(...)] loop from index [i]
    on, over the bands [bands] still to visit; [n] is the length of the
    whole table.  [None]: the loop ended without a [return]. *)
Fixpoint scan (n i : nat) (bands : list Breakpoint) (value : Q)
  : option (outcome Z) :=
  match bands with
  | [] => None
  | b :: rest =>
      if Nat.eqb i (n - 1) then
        if Qle_bool (Clow b) value && Qle_bool value (Chigh b)
        then Some (band_result b value)
        else scan n (S i) rest value
      else
        if Qle_bool (Clow b) value && negb (Qle_bool (Chigh b) value)
        then Some (band_result b value)
        else scan n (S i) rest value
  end.

(** [table[-1][3]]: indexing an empty list raises. *)
Definition last_Ihigh (table : list Breakpoint) : outcome Z :=
  match last table with
  | Some b => Return (Ihigh b)
  | None => Raise IndexError
  end.

(** The two unit conversions at the head of the function. *)
Definition normalize (value : Q) (parameter : string) : Q :=
  let value := if String.eqb parameter "CO" then (value / 1000.0)%Q else value in
  let value := if String.eqb parameter "O3" then (value / 2.0)%Q else value in
  value.

Definition calculate_aqi_subindex (value : Q) (parameter : string) : outcome Z :=
  let value := normalize value parameter in
  match breakpoints !! parameter with
  | None => Return 0
  | Some table =>
      match scan (length table) 0 table value with
      | Some r => r
      | None => last_Ihigh table
      end
  end.

(** ** [get_aqi_category] *)

Definition get_aqi_category (aqi_value : Z) : string * string :=
  if aqi_value <=? 50 then
    ("Good", "The air is fresh and free from toxins. Enjoy outdoor activities without any health concerns.")
  else if (51 <=? aqi_value) && (aqi_value <=? 100) then
    ("Moderate", "Air quality is acceptable for most, but sensitive individuals might experience mild discomfort.")
  else if (101 <=? aqi_value) && (aqi_value <=? 150) then
    ("Poor", "Breathing may become slightly uncomfortable, especially for those with respiratory issues.")
  else if (151 <=? aqi_value) && (aqi_value <=? 200) then
    ("Unhealthy", "This air quality is particularly risky for children, pregnant women, and the elderly. Limit outdoor activities.")
  else if (201 <=? aqi_value) && (aqi_value <=? 300) then
    ("Severe", "Prolonged exposure can cause chronic health issues or organ damage. Avoid outdoor activities.")
  else
    ("Hazardous", "Dangerously high pollution levels. Life-threatening health risks with prolonged exposure. Stay indoors and take precautions.").

(** ** The data frame of readings *)

(** One row of the frame built by [fetch_location_data]: the columns the
    computation reads.  [datetime_utc] is an instant on the UTC time line
    (a count of microseconds); the location and coordinate columns play no
    part in the index and are left out. *)
Record Reading : Set := mkReading {
  datetime_utc : Z;
  parameter : string;
  value : Q;
  unit : string;
  sensor_id : Z
}.

Definition parameter_mapping : gmap string string :=
  list_to_map
    [ ("pm25", "PM2.5");
      ("pm10", "PM10");
      ("no2", "NO2");
      ("co", "CO");
      ("so2", "SO2");
      ("o3", "O3");
      ("rh", "Relative Humidity") ].

(** [col.map(parameter_mapping).fillna(col)] on one cell. *)
Definition map_parameter (p : string) : string :=
  default p (parameter_mapping !! p).

Definition rename_parameter (r : Reading) : Reading :=
  {| datetime_utc := datetime_utc r;
     parameter := map_parameter (parameter r);
     value := value r;
     unit := unit r;
     sensor_id := sensor_id r |}.

(** [sort_values('datetime_utc')]: ascending by timestamp.  Among rows of
    equal timestamp pandas promises no order; the model keeps the order of
    its merge sort, and the statements below hold for any such order. *)
Definition earlier_eq (r1 r2 : Reading) : Prop :=
  datetime_utc r1 <= datetime_utc r2.

#[global] Instance earlier_eq_dec : RelDecision earlier_eq :=
  fun r1 r2 => Z_le_dec (datetime_utc r1) (datetime_utc r2).

Definition sort_values (rows : list Reading) : list Reading :=
  merge_sort earlier_eq rows.

(** [groupby('parameter')]: the group keys are the distinct parameters in
    ascending order. *)
Definition string_le (s1 s2 : string) : Prop := String.leb s1 s2 = true.

#[global] Instance string_le_dec : RelDecision string_le :=
  fun s1 s2 => bool_eq_dec (String.leb s1 s2) true.

Definition group_keys (rows : list Reading) : list string :=
  merge_sort string_le (remove_dups (parameter <$> rows)).

(** [.last()]: of every group the last row, in the order of the frame.
    Every cell of a row is present (a reading carries a numeric value), so
    the last entry of each column is the one of the last row. *)
Definition group (k : string) (rows : list Reading) : list Reading :=
  filter (fun r => parameter r = k) rows.

Definition groupby_last (rows : list Reading) : list Reading :=
  omap (fun k => last (group k rows)) (group_keys rows).

(** Lines 577 and 580: rename the parameters, then keep the latest row of
    each parameter. *)
Definition latest_data (location_data : list Reading) : list Reading :=
  groupby_last (sort_values (rename_parameter <$> location_data)).

(** [latest_data.apply(lambda row: calculate_aqi_subindex(...), axis=1)] *)
Definition aqi_subindex_column (latest : list Reading) : outcome (list Z) :=
  mapM (fun row => calculate_aqi_subindex (value row) (parameter row)) latest.

(** [Series.max()] of a column of integers; an empty column has none. *)
Definition series_max (column : list Z) : option Z :=
  match column with
  | [] => None
  | x :: rest => Some (foldl Z.max x rest)
  end.

Record AqiResult : Set := mkAqiResult {
  aqi_subindex : list Z;
  current_aqi : Z;
  category : string;
  description : string
}.

(** Lines 583 to 587, on the frame of latest readings.  [None] stands for
    the empty frame, which [update_info_panel] never passes on. *)
Definition resolve (latest : list Reading) : outcome (option AqiResult) :=
  column ← aqi_subindex_column latest;
  Return (m ← series_max column;
          Some (mkAqiResult column m
                  (get_aqi_category m).1 (get_aqi_category m).2)).

(** The computation of [update_info_panel] on the fetched frame; [None] is
    the panel "No Data Available". *)
Definition update_info_panel (location_data : list Reading)
  : outcome (option AqiResult) :=
  match location_data with
  | [] => Return None
  | _ :: _ => resolve (latest_data location_data)
  end.

(** ** Vocabulary of the statements *)

(** A band holds a value: its lower bound is inclusive; its upper bound is
    exclusive, but inclusive for the last band of a table. *)
Definition in_band (last_band : bool) (b : Breakpoint) (v : Q) : Prop :=
  (Clow b <= v)%Q /\ if last_band then (v <= Chigh b)%Q else (v < Chigh b)%Q.

Definition covered_by (table : list Breakpoint) (i : nat) (v : Q) : Prop :=
  exists b, table !! i = Some b /\
            in_band (Nat.eqb i (length table - 1)) b v.

Definition covered (table : list Breakpoint) (v : Q) : Prop :=
  exists i, covered_by table i v.

(** The value lies strictly between two neighbouring bands. *)
Definition in_gap (table : list Breakpoint) (v : Q) : Prop :=
  exists i b b', table !! i = Some b /\ table !! S i = Some b' /\
                 (Chigh b < v)%Q /\ (v < Clow b')%Q.

(** Shape of the tables: every band is a proper interval of non-negative
    concentrations with a non-negative index range, and the bands ascend
    without touching. *)
Definition band_ok (b : Breakpoint) : Prop :=
  (0 <= Clow b)%Q /\ (Clow b < Chigh b)%Q /\ 0 <= Ilow b <= Ihigh b.

Definition before (b b' : Breakpoint) : Prop :=
  (Chigh b < Clow b')%Q /\ Ihigh b < Ilow b'.

Definition table_ok (table : list Breakpoint) : Prop :=
  Forall band_ok table /\ StronglySorted before table.

(** The reading of "clamped to the nearest bound" for a negative value:
    the index at the lowest bound of the table. *)
Definition negative_yields_lowest_index : Prop :=
  forall (p : string) (table : list Breakpoint) (b0 : Breakpoint) (v : Q),
    breakpoints !! p = Some table -> head table = Some b0 -> (v < 0)%Q ->
    calculate_aqi_subindex v p = Return (Ilow b0).

(** Monotonicity of the sub-index over all values of a parameter that has
    a table. *)
Definition subindex_monotone : Prop :=
  forall (p : string) (v1 v2 : Q) (n1 n2 : Z),
    is_Some (breakpoints !! p) -> (v1 <= v2)%Q ->
    calculate_aqi_subindex v1 p = Return n1 ->
    calculate_aqi_subindex v2 p = Return n2 ->
    n1 <= n2.

(** The six severity bands as ranges of index values: 0 to 50, 51 to
    100, 101 to 150, 151 to 200, 201 to 300, and 301 upwards. *)
Definition in_category (c : string) (n : Z) : bool :=
  if String.eqb c "Good" then (0 <=? n) && (n <=? 50)
  else if String.eqb c "Moderate" then (51 <=? n) && (n <=? 100)
  else if String.eqb c "Poor" then (101 <=? n) && (n <=? 150)
  else if String.eqb c "Unhealthy" then (151 <=? n) && (n <=? 200)
  else if String.eqb c "Severe" then (201 <=? n) && (n <=? 300)
  else if String.eqb c "Hazardous" then 301 <=? n
  else false.

(** The integer a row contributes to the column of sub-indices. *)
Definition subindex_of (row : Reading) : Z :=
  match calculate_aqi_subindex (value row) (parameter row) with
  | Return n => n
  | Raise _ => 0
  end.

(** The rows whose parameter has a breakpoint table. *)
Definition has_table (row : Reading) : Prop :=
  is_Some (breakpoints !! parameter row).

#[global] Instance has_table_dec (row : Reading) : Decision (has_table row).
Proof. unfold has_table. apply _. Defined.

Definition tabled (latest : list Reading) : list Reading :=
  filter has_table latest.

(** Rows without a table yield no sub-index: the column of sub-indices is
    the column of the rows that have a table. *)
Definition tableless_absent : Prop :=
  forall latest : list Reading,
    aqi_subindex_column latest = aqi_subindex_column (tabled latest).

(** The category of each band position of a table: the index ranges of
    the seven rows, read through the thresholds of [get_aqi_category]. *)
Definition band_categories : list string :=
  [ "Good"; "Moderate"; "Poor"; "Unhealthy"; "Severe"; "Hazardous"; "Hazardous" ].

(** The branches of [get_aqi_category], numbered in source order. *)
Definition severity (c : string) : nat :=
  if String.eqb c "Good" then 0
  else if String.eqb c "Moderate" then 1
  else if String.eqb c "Poor" then 2
  else if String.eqb c "Unhealthy" then 3
  else if String.eqb c "Severe" then 4
  else 5.

(** The names under which a reading reaches a breakpoint table: the six
    names of the API and the six display names. *)
Definition pollutant_names : list string :=
  [ "pm25"; "pm10"; "no2"; "co"; "so2"; "o3";
    "PM2.5"; "PM10"; "NO2"; "CO"; "SO2"; "O3" ].

(** A latest row of a frame: no row of the same parameter is later. *)
Definition is_latest (rows : list Reading) (r : Reading) : Prop :=
  r ∈ rows /\
  forall x, x ∈ rows -> parameter x = parameter r ->
            datetime_utc x <= datetime_utc r.

(** No two different readings of one (renamed) parameter carry the same
    timestamp. *)
Definition no_ties (rows : list Reading) : Prop :=
  forall x y, x ∈ rows -> y ∈ rows ->
    map_parameter (parameter x) = map_parameter (parameter y) ->
    datetime_utc x = datetime_utc y -> x = y.

(** ** Start-up data (lines 30 to 45) *)

(** [f'OPENAQ_API_KEY_{i}'] *)
Definition api_key_name (i : nat) : string :=
  String.append "OPENAQ_API_KEY_" (NilEmpty.string_of_uint (Nat.to_uint i)).

(** The loop that collects the API keys; [getenv] is [os.getenv] on the
    environment of the process.  [if key:] holds for a string that is set
    and not empty. *)
Definition load_api_keys (getenv : string -> option string) : list string :=
  foldl (fun api_keys i =>
           match getenv (api_key_name i) with
           | Some key => if String.eqb key "" then api_keys else (api_keys ++ [key])%list
           | None => api_keys
           end)
        [] (seq 1 11).

(** One sensor entry of [all_sensors_data.json]. *)
Record Sensor : Set := mkSensor {
  sensorid : Z;
  sensor_parameter_name : string;
  sensor_units : string;
  sensor_display_name : string
}.

(** The value stored per sensor id in [sensor_parameters]. *)
Record SensorInfo : Set := mkSensorInfo {
  parameter_name : string;
  units : string;
  display_name : string
}.

Definition sensor_info (sensor : Sensor) : SensorInfo :=
  {| parameter_name := sensor_parameter_name sensor;
     units := sensor_units sensor;
     display_name := sensor_display_name sensor |}.

(** The nested loop that fills [sensor_parameters]; the data is a list of
    locations, each with its list of sensors. *)
Definition build_sensor_parameters (sensor_parameters_data : list (list Sensor))
  : gmap Z SensorInfo :=
  foldl (fun sensor_parameters sensors =>
           foldl (fun sensor_parameters sensor =>
                    <[sensorid sensor := sensor_info sensor]> sensor_parameters)
                 sensor_parameters sensors)
        ∅ sensor_parameters_data.

(** ** [fetch_location_data] *)

(** One entry of the ['results'] of the API: the instant parsed from
    [result['datetime']['utc']], the sensor id and the value.  Every entry
    is taken to carry these fields. *)
Record ApiResult : Set := mkApiResult {
  result_utc : Z;
  result_sensorsId : Z;
  result_value : Q
}.

(** What the request yields: an exception of the [requests] library, or
    the decoded body, whose ['results'] key may be missing. *)
Inductive Response : Set :=
  | RequestException
  | Json (results : option (list ApiResult)).

(** [.date()] of an instant counted in microseconds on the UTC time line:
    the number of its day. *)
Definition date (t : Z) : Z := t / 86400000000.

(** [api_keys[api_index % len(api_keys)]] *)
Definition select_api_key (api_keys : list string) (api_index : Z) : outcome string :=
  if Nat.eqb (length api_keys) 0 then Raise ZeroDivisionError
  else match api_keys !! Z.to_nat (api_index mod Z.of_nat (length api_keys)) with
       | Some key => Return key
       | None => Raise IndexError
       end.

(** The row appended for a result; a sensor id outside the catalog gets
    the parameter ['unknown'] and the unit ['N/A']. *)
Definition result_row (sensor_parameters : gmap Z SensorInfo) (result : ApiResult)
  : Reading :=
  let parameter_info := sensor_parameters !! result_sensorsId result in
  {| datetime_utc := result_utc result;
     parameter := from_option parameter_name "unknown" parameter_info;
     value := result_value result;
     unit := from_option units "N/A" parameter_info;
     sensor_id := result_sensorsId result |}.

(** [http_get key location_id] stands for the request sent with the key
    in its header, [api_index] for the draw of [random.randint(0, 10)] and
    [now] for the clock.  The key is selected before the [try]; within it
    only an exception of the request is caught. *)
Definition fetch_location_data (http_get : string -> Z -> Response)
    (api_keys : list string) (sensor_parameters : gmap Z SensorInfo)
    (api_index now : Z) (location_id : Z) : outcome (list Reading) :=
  key ← select_api_key api_keys api_index;
  let today_utc := date now in
  let yesterday_utc := today_utc - 1 in
  match http_get key location_id with
  | RequestException => Return []
  | Json results =>
      Return (omap (fun result =>
                      let utc_date := date (result_utc result) in
                      if bool_decide (utc_date = today_utc)
                         || bool_decide (utc_date = yesterday_utc)
                      then Some (result_row sensor_parameters result)
                      else None)
                   (default [] results))
  end.

(** ** The callback [update_info_panel] *)

Record Location : Set := mkLocation {
  location_id : Z;
  location_name : string
}.

(** [locations_df['location_name'].iloc[0]] *)
Definition first_location_name (locations_df : list Location) : outcome string :=
  match locations_df with
  | [] => Raise IndexError
  | l :: _ => Return (location_name l)
  end.

(** [if not selected_location: selected_location = ...]; the stored value
    is a string or [None]. *)
Definition default_location (locations_df : list Location)
    (selected_location : option string) : outcome string :=
  match selected_location with
  | Some name =>
      if String.eqb name "" then first_location_name locations_df
      else Return name
  | None => first_location_name locations_df
  end.

(** [locations_df[locations_df['location_name'] == selected_location].iloc[0]] *)
Definition location_row (locations_df : list Location) (selected_location : string)
  : outcome Location :=
  match filter (fun l => location_name l = selected_location) locations_df with
  | [] => Raise IndexError
  | l :: _ => Return l
  end.

(** The outputs of the callback that the computation determines: the
    title and the data of the panel ([None]: "No Data Available"). *)
Record InfoPanel : Set := mkInfoPanel {
  location_title : string;
  panel : option AqiResult
}.

Definition update_info_panel_callback (http_get : string -> Z -> Response)
    (api_keys : list string) (sensor_parameters : gmap Z SensorInfo)
    (locations_df : list Location) (api_index now : Z)
    (selected_location : option string) : outcome InfoPanel :=
  selected ← default_location locations_df selected_location;
  row ← location_row locations_df selected;
  location_data ← fetch_location_data http_get api_keys sensor_parameters
                    api_index now (location_id row);
  result ← update_info_panel location_data;
  Return (mkInfoPanel selected result).

(** ** Colours of the gauge *)

Definition colors : gmap string string :=
  list_to_map
    [ ("background", "#000000"); ("card", "#000000"); ("text", "#E0E0E0");
      ("accent", "#EA7300"); ("dot", "#d96b00"); ("grid", "#444444");
      ("aqi_good", "limegreen"); ("aqi_moderate", "gold");
      ("aqi_poor", "orange"); ("aqi_unhealthy", "orangered");
      ("aqi_severe", "red"); ("aqi_hazardous", "darkred") ].

(** [{...}.get(category, colors['text'])]; every key read from [colors]
    is one of its literal entries. *)
Definition category_color (category : string) : string :=
  let by_category : gmap string string :=
    list_to_map
      [ ("Good", colors !!! "aqi_good"); ("Moderate", colors !!! "aqi_moderate");
        ("Poor", colors !!! "aqi_poor"); ("Unhealthy", colors !!! "aqi_unhealthy");
        ("Severe", colors !!! "aqi_severe"); ("Hazardous", colors !!! "aqi_hazardous") ] in
  default (colors !!! "text") (by_category !! category).

(** The ['steps'] of the gauge: range and colour. *)
Definition gauge_steps : list (Z * Z * string) :=
  [ (0, 50, colors !!! "aqi_good"); (50, 100, colors !!! "aqi_moderate");
    (100, 150, colors !!! "aqi_poor"); (150, 200, colors !!! "aqi_unhealthy");
    (200, 300, colors !!! "aqi_severe"); (300, 500, colors !!! "aqi_hazardous") ].

(** * Properties *)

(** ** Rounding *)

Section Rounding.

Lemma round_floor_or_next (x : Q) :
  round x = Qfloor x \/ round x = Qfloor x + 1.
Proof.
  unfold round.
  destruct (x - inject_Z (Qfloor x) ?= 1 # 2)%Q; auto.
  destruct (Z.even (Qfloor x)); auto.
Qed.

Lemma round_inject_Z (z : Z) : round (inject_Z z) = z.
Proof.
  unfold round. rewrite Qfloor_Z.
  destruct (Qcompare_spec (inject_Z z - inject_Z z) (1 # 2)); [lra | reflexivity | lra].
Qed.

Lemma round_mono (x y : Q) : (x <= y)%Q -> round x <= round y.
Proof.
  intros Hxy.
  pose proof (Qfloor_le x) as Hx1. pose proof (Qlt_floor x) as Hx2.
  pose proof (Qfloor_le y) as Hy1. pose proof (Qlt_floor y) as Hy2.
  pose proof (Qfloor_resp_le x y Hxy) as Hf.
  rewrite inject_Z_plus in Hx2, Hy2.
  destruct (Z.eq_dec (Qfloor x) (Qfloor y)) as [Heq | Hne].
  - unfold round. rewrite <- Heq. rewrite <- Heq in Hy1, Hy2.
    destruct (Qcompare_spec (x - inject_Z (Qfloor x)) (1 # 2)) as [Hcx | Hcx | Hcx];
      destruct (Qcompare_spec (y - inject_Z (Qfloor x)) (1 # 2)) as [Hcy | Hcy | Hcy];
      try destruct (Z.even (Qfloor x)); try lia; lra.
  - destruct (round_floor_or_next x) as [-> | ->];
      destruct (round_floor_or_next y) as [-> | ->]; lia.
Qed.

Lemma round_between (x : Q) (lo hi : Z) :
  (inject_Z lo <= x)%Q -> (x <= inject_Z hi)%Q -> lo <= round x <= hi.
Proof.
  intros Hlo Hhi. split.
  - rewrite <- (round_inject_Z lo). now apply round_mono.
  - rewrite <- (round_inject_Z hi). now apply round_mono.
Qed.

End Rounding.

(** ** Interpolation inside one band *)

Section Interpolation.

Variable b : Breakpoint.
Hypothesis Hb : band_ok b.

Lemma slope_nonneg : (0 <= slope b)%Q.
Proof.
  destruct Hb as (_ & Hc & Hi). unfold slope.
  apply Qle_shift_div_l; [lra |].
  rewrite Qmult_0_l. change 0%Q with (inject_Z 0). rewrite <- Zle_Qle. lia.
Qed.

Lemma slope_width :
  (slope b * (Chigh b - Clow b) == inject_Z (Ihigh b) - inject_Z (Ilow b))%Q.
Proof.
  destruct Hb as (_ & Hc & Hi). unfold slope.
  unfold Z.sub. rewrite inject_Z_plus, inject_Z_opp. field. lra.
Qed.

Lemma interpolate_returns (v : Q) :
  interpolate b v = Return (slope b * (v - Clow b) + inject_Z (Ilow b))%Q.
Proof.
  destruct Hb as (_ & Hc & _). unfold interpolate.
  destruct (Qeq_bool (Chigh b - Clow b) 0) eqn:E; [| reflexivity].
  apply Qeq_bool_eq in E. lra.
Qed.

Lemma interpolate_lower (v q : Q) :
  interpolate b v = Return q -> (Clow b <= v)%Q -> (inject_Z (Ilow b) <= q)%Q.
Proof.
  rewrite interpolate_returns. intros [= <-] Hv.
  pose proof slope_nonneg as Hs.
  assert (0 <= slope b * (v - Clow b))%Q by (apply Qmult_le_0_compat; lra).
  lra.
Qed.

Lemma interpolate_mono (v1 v2 q1 q2 : Q) :
  interpolate b v1 = Return q1 -> interpolate b v2 = Return q2 ->
  (v1 <= v2)%Q -> (q1 <= q2)%Q.
Proof.
  rewrite !interpolate_returns. intros [= <-] [= <-] Hv.
  pose proof slope_nonneg as Hs.
  assert (0 <= slope b * (v2 - v1))%Q by (apply Qmult_le_0_compat; lra).
  lra.
Qed.

Lemma interpolate_upper (v q : Q) :
  interpolate b v = Return q -> (v <= Chigh b)%Q -> (q <= inject_Z (Ihigh b))%Q.
Proof.
  rewrite interpolate_returns. intros [= <-] Hv.
  pose proof slope_nonneg as Hs. pose proof slope_width as Hw.
  assert (0 <= slope b * (Chigh b - v))%Q by (apply Qmult_le_0_compat; lra).
  lra.
Qed.

End Interpolation.

(** ** The loop over the bands *)

Section Scan.

Implicit Types (n i : nat) (b : Breakpoint) (v : Q).

Lemma guard_in_band n i b v :
  (if Nat.eqb i (n - 1)
   then Qle_bool (Clow b) v && Qle_bool v (Chigh b)
   else Qle_bool (Clow b) v && negb (Qle_bool (Chigh b) v)) = true
  <-> in_band (Nat.eqb i (n - 1)) b v.
Proof.
  unfold in_band. destruct (Nat.eqb i (n - 1));
    rewrite andb_true_iff, ?negb_true_iff, !Qle_bool_iff.
  - reflexivity.
  - split; intros [H1 H2]; split; try assumption.
    + apply Qnot_le_lt. intros H. apply Qle_bool_iff in H. congruence.
    + destruct (Qle_bool (Chigh b) v) eqn:E; [| reflexivity].
      apply Qle_bool_iff in E. lra.
Qed.

Lemma in_band_dec (l : bool) b v : in_band l b v \/ ~ in_band l b v.
Proof.
  unfold in_band.
  destruct (Qlt_le_dec v (Clow b)); [right; lra |].
  destruct l.
  - destruct (Qlt_le_dec (Chigh b) v); [right; lra | left; lra].
  - destruct (Qlt_le_dec v (Chigh b)); [left; lra | right; lra].
Qed.

Lemma scan_cons_in n i b rest v :
  in_band (Nat.eqb i (n - 1)) b v ->
  scan n i (b :: rest) v = Some (band_result b v).
Proof.
  intros H. apply guard_in_band in H. simpl.
  destruct (Nat.eqb i (n - 1)); now rewrite H.
Qed.

Lemma scan_cons_out n i b rest v :
  ~ in_band (Nat.eqb i (n - 1)) b v ->
  scan n i (b :: rest) v = scan n (S i) rest v.
Proof.
  intros H. rewrite <- guard_in_band in H. simpl.
  destruct (Nat.eqb i (n - 1));
    match goal with |- context [if ?g then _ else _] => destruct g end;
    congruence.
Qed.

(** Bands that end below the value are passed over. *)
Lemma scan_skip n i pre rest v :
  Forall (fun b => (Chigh b < v)%Q) pre ->
  scan n i (pre ++ rest) v = scan n (i + length pre) rest v.
Proof.
  intros H. revert i. induction H as [| b pre Hb _ IH]; intros i.
  - simpl. now rewrite Nat.add_0_r.
  - rewrite <- app_comm_cons, scan_cons_out.
    + rewrite IH. f_equal. simpl. lia.
    + unfold in_band. destruct (Nat.eqb i (n - 1)); lra.
Qed.

(** No band around the value: the loop ends without returning. *)
Lemma scan_none n i bands v :
  Forall (fun b => (v < Clow b)%Q \/ (Chigh b < v)%Q) bands ->
  scan n i bands v = None.
Proof.
  intros H. revert i. induction H as [| b bands Hb _ IH]; intros i.
  - reflexivity.
  - rewrite scan_cons_out; [apply IH |].
    unfold in_band. destruct (Nat.eqb i (n - 1)); lra.
Qed.

(** A result of the loop comes from a band around the value. *)
Lemma scan_some n i bands v r :
  scan n i bands v = Some r ->
  exists b, b ∈ bands /\ (Clow b <= v)%Q /\ (v <= Chigh b)%Q /\
            r = band_result b v.
Proof.
  revert i. induction bands as [| b bands IH]; intros i; [discriminate |].
  destruct (in_band_dec (Nat.eqb i (n - 1)) b v) as [Hin | Hout].
  - rewrite scan_cons_in by assumption. intros [= <-].
    exists b. split; [left |].
    unfold in_band in Hin. destruct (Nat.eqb i (n - 1)); repeat split; lra.
  - rewrite scan_cons_out by assumption. intros H.
    destruct (IH _ H) as (b' & Hb' & Hrest).
    exists b'. split; [now right | assumption].
Qed.

End Scan.

(** ** The six tables *)

Section Tables.

Implicit Types (table : list Breakpoint) (b : Breakpoint) (v : Q).

Lemma breakpoints_lookup_items (p : string) table :
  breakpoints !! p = Some table -> (p, table) ∈ breakpoints_items.
Proof. apply elem_of_list_to_map_2. Qed.

Lemma breakpoints_items_ok :
  Forall (fun kv => table_ok kv.2 /\ kv.2 <> []) breakpoints_items.
Proof.
  unfold breakpoints_items.
  repeat constructor; try discriminate; vm_compute; congruence.
Qed.

Lemma breakpoints_table_ok (p : string) table :
  breakpoints !! p = Some table -> table_ok table /\ table <> [].
Proof.
  intros H. apply breakpoints_lookup_items in H.
  pose proof breakpoints_items_ok as Hall.
  rewrite Forall_forall in Hall. exact (Hall _ H).
Qed.

Lemma band_result_bounds b v :
  band_ok b -> (Clow b <= v)%Q -> (v <= Chigh b)%Q ->
  exists n, band_result b v = Return n /\ Ilow b <= n <= Ihigh b.
Proof.
  intros Hb Hlo Hhi. unfold band_result.
  rewrite (interpolate_returns b Hb). simpl.
  eexists. split; [reflexivity |].
  apply round_between.
  - eapply interpolate_lower; eauto using interpolate_returns.
  - eapply interpolate_upper; eauto using interpolate_returns.
Qed.

Lemma band_result_mono b v1 v2 :
  band_ok b -> (v1 <= v2)%Q ->
  exists n1 n2, band_result b v1 = Return n1 /\ band_result b v2 = Return n2 /\
                n1 <= n2.
Proof.
  intros Hb Hv. unfold band_result.
  rewrite !(interpolate_returns b Hb). simpl.
  do 2 eexists. split; [reflexivity |]. split; [reflexivity |].
  apply round_mono.
  eapply interpolate_mono; eauto using interpolate_returns.
Qed.

(** In a well-shaped table the band of index [i] is reached as soon as it
    holds the value. *)
Lemma scan_covered table i b v :
  table_ok table -> table !! i = Some b ->
  in_band (Nat.eqb i (length table - 1)) b v ->
  scan (length table) 0 table v = Some (band_result b v).
Proof.
  intros [_ Hsorted] Hi Hin.
  pose proof (lookup_lt_Some _ _ _ Hi) as Hlt.
  rewrite <- (take_drop_middle _ _ _ Hi) at 2.
  rewrite <- (take_drop_middle _ _ _ Hi) in Hsorted.
  rewrite scan_skip.
  - rewrite length_take_le by lia. now apply scan_cons_in.
  - apply Forall_forall. intros b' Hb'.
    assert (Hbb' : before b' b).
    { eapply StronglySorted_app_1_elem_of; eauto. left. }
    destruct Hbb' as [Hc _]. destruct Hin as [Hlo _]. lra.
Qed.

(** The last band tops the table. *)
Lemma last_tops table bl b :
  table_ok table -> last table = Some bl -> b ∈ table ->
  (Chigh b <= Chigh bl)%Q /\ Ihigh b <= Ihigh bl.
Proof.
  intros [Hok Hsorted] Hlast Hb.
  apply last_Some in Hlast as [pre ->].
  apply elem_of_app in Hb as [Hb | Hb].
  - assert (Hbb : before b bl).
    { eapply StronglySorted_app_1_elem_of; eauto. left. }
    destruct Hbb as [Hc Hi].
    assert (Hbl : band_ok bl).
    { rewrite Forall_forall in Hok. apply Hok. apply elem_of_app. right. left. }
    destruct Hbl as (_ & ? & ?). split; [lra | lia].
  - apply list_elem_of_singleton in Hb as ->. split; [lra | lia].
Qed.

End Tables.

(** ** The sub-index of a reading *)

Section Subindex.

Implicit Types (table : list Breakpoint) (b : Breakpoint) (v : Q) (p : string).

Lemma sorted_lookup_before table i j bi bj :
  StronglySorted before table ->
  table !! i = Some bi -> table !! j = Some bj -> (i < j)%nat ->
  before bi bj.
Proof.
  intros Hsorted Hi Hj Hij.
  rewrite <- (take_drop_middle _ _ _ Hj) in Hsorted.
  eapply StronglySorted_app_1_elem_of; [exact Hsorted | | left].
  apply list_elem_of_lookup. exists i.
  rewrite lookup_take_lt by assumption. exact Hi.
Qed.

Lemma subindex_unfold v p table :
  breakpoints !! p = Some table ->
  calculate_aqi_subindex v p =
    match scan (length table) 0 table (normalize v p) with
    | Some r => r
    | None => last_Ihigh table
    end.
Proof. intros H. unfold calculate_aqi_subindex. now rewrite H. Qed.

Lemma breakpoints_last p table :
  breakpoints !! p = Some table ->
  exists bl, last table = Some bl /\
             Ihigh bl = if String.eqb p "O3" then 300 else 500.
Proof.
  intros H. apply breakpoints_lookup_items in H.
  unfold breakpoints_items in H.
  repeat (apply elem_of_cons in H as [[= -> ->] | H];
          [eexists; split; reflexivity |]).
  now apply elem_of_nil in H.
Qed.

(** A parameter with a table: the function returns, and the result lies
    between zero and the upper index of the last band. *)
Lemma subindex_below_last v p table bl :
  breakpoints !! p = Some table -> last table = Some bl ->
  exists n, calculate_aqi_subindex v p = Return n /\ 0 <= n <= Ihigh bl.
Proof.
  intros Hp Hlast.
  destruct (breakpoints_table_ok _ _ Hp) as [Hok _].
  pose proof Hok as [Hbands _]. rewrite Forall_forall in Hbands.
  rewrite (subindex_unfold _ _ _ Hp).
  destruct (scan _ _ _ _) as [r |] eqn:Hscan.
  - apply scan_some in Hscan as (b & Hb & Hlo & Hhi & ->).
    destruct (band_result_bounds b _ (Hbands _ Hb) Hlo Hhi) as (n & -> & Hn).
    destruct (last_tops _ _ _ Hok Hlast Hb) as [_ Htop].
    destruct (Hbands _ Hb) as (_ & _ & ?).
    exists n. split; [reflexivity | lia].
  - unfold last_Ihigh. rewrite Hlast.
    destruct (Hbands bl) as (_ & _ & ?); [now apply last_Some_elem_of |].
    eexists. split; [reflexivity | lia].
Qed.

(** The function returns on every input. *)
Lemma subindex_total v p :
  exists n, calculate_aqi_subindex v p = Return n /\ 0 <= n <= 500.
Proof.
  destruct (breakpoints !! p) as [table |] eqn:Hp.
  - destruct (breakpoints_last _ _ Hp) as (bl & Hlast & Hcap).
    destruct (subindex_below_last v _ _ _ Hp Hlast) as (n & Hn & Hr).
    exists n. split; [exact Hn |].
    destruct (String.eqb p "O3"); lia.
  - exists 0. unfold calculate_aqi_subindex. rewrite Hp. split; [reflexivity | lia].
Qed.

(** Outside every band the loop finds nothing and the function returns
    the upper index of the last band. *)
Lemma subindex_unmatched v p table bl :
  breakpoints !! p = Some table -> last table = Some bl ->
  Forall (fun b => (normalize v p < Clow b)%Q \/ (Chigh b < normalize v p)%Q) table ->
  calculate_aqi_subindex v p = Return (Ihigh bl).
Proof.
  intros Hp Hlast Hout.
  rewrite (subindex_unfold _ _ _ Hp), scan_none by assumption.
  unfold last_Ihigh. now rewrite Hlast.
Qed.

Lemma negative_unmatched table (x : Q) :
  table_ok table -> (x < 0)%Q ->
  Forall (fun b => (x < Clow b)%Q \/ (Chigh b < x)%Q) table.
Proof.
  intros [Hbands _] Hx. eapply Forall_impl; [exact Hbands |].
  intros b (? & _). left. lra.
Qed.

Lemma beyond_unmatched table bl (x : Q) :
  table_ok table -> last table = Some bl -> (Chigh bl < x)%Q ->
  Forall (fun b => (x < Clow b)%Q \/ (Chigh b < x)%Q) table.
Proof.
  intros Hok Hlast Hx. apply Forall_forall. intros b Hb.
  destruct (last_tops _ _ _ Hok Hlast Hb) as [? _]. right. lra.
Qed.

Lemma gap_unmatched table (x : Q) :
  table_ok table -> in_gap table x ->
  Forall (fun b => (x < Clow b)%Q \/ (Chigh b < x)%Q) table.
Proof.
  intros [Hbands Hsorted] (i & bi & bi' & Hi & Hi' & Hlo & Hhi).
  rewrite Forall_forall in Hbands.
  apply Forall_forall. intros b Hb.
  pose proof (Hbands _ Hb) as (_ & Hb1 & _).
  apply list_elem_of_lookup in Hb as [j Hj].
  destruct (Nat.lt_total j i) as [Hlt | [-> | Hgt]].
  - destruct (sorted_lookup_before _ _ _ _ _ Hsorted Hj Hi Hlt) as [? _].
    destruct (Hbands bi) as (_ & ? & _); [eapply list_elem_of_lookup_2; eauto |].
    right. lra.
  - rewrite Hi in Hj. injection Hj as <-. now right.
  - destruct (Nat.eq_dec j (S i)) as [-> | Hne].
    + rewrite Hi' in Hj. injection Hj as <-. now left.
    + assert (Hlt : (S i < j)%nat) by lia.
      destruct (sorted_lookup_before _ _ _ _ _ Hsorted Hi' Hj Hlt) as [? _].
      destruct (Hbands bi') as (_ & ? & _); [eapply list_elem_of_lookup_2; eauto |].
      left. lra.
Qed.

End Subindex.

(** ** Unit conversion *)

Section Normalize.

Lemma normalize_mono (v1 v2 : Q) (p : string) :
  (v1 <= v2)%Q -> (normalize v1 p <= normalize v2 p)%Q.
Proof.
  intros H. unfold normalize.
  destruct (String.eqb p "CO"); destruct (String.eqb p "O3");
    unfold Qdiv; repeat apply Qmult_le_compat_r; try assumption;
    vm_compute; discriminate.
Qed.

Lemma normalize_negative (v : Q) (p : string) :
  (v < 0)%Q -> (normalize v p < 0)%Q.
Proof.
  intros H. unfold normalize.
  destruct (String.eqb p "CO"); destruct (String.eqb p "O3");
    repeat (apply Qlt_shift_div_r; [reflexivity | rewrite Qmult_0_l]);
    assumption.
Qed.

End Normalize.

(** ** Range of the sub-index *)

(** C10: for every value and every parameter string the sub-index
    computation returns an integer between 0 and 500; for O3 the result
    never exceeds 300, so the category of an O3 sub-index is never
    "Hazardous". *)
Theorem subindex_range (v : Q) (p : string) :
  (exists n, calculate_aqi_subindex v p = Return n /\ 0 <= n <= 500) /\
  (exists n, calculate_aqi_subindex v "O3" = Return n /\ 0 <= n <= 300 /\
             (get_aqi_category n).1 <> "Hazardous").
Proof.
  split.
  - apply subindex_total.
  - assert (Hp : breakpoints !! "O3" = Some O3_table) by (vm_compute; reflexivity).
    destruct (breakpoints_last _ _ Hp) as (bl & Hlast & Hcap).
    destruct (subindex_below_last v _ _ _ Hp Hlast) as (n & Hn & Hr).
    simpl in Hcap. exists n. split; [exact Hn |]. split; [lia |].
    unfold get_aqi_category.
    repeat match goal with
           | |- context [if ?c then _ else _] => destruct c eqn:?
           end; simpl; try discriminate.
    lia.
Qed.

(** ** Values outside the bands *)

(** C6: for a parameter with a table, a normalized value that is negative,
    lies in a gap between two neighbouring bands, or exceeds the upper
    bound of the last band makes the computation return (not raise) the
    upper index of the last band. *)
Theorem subindex_outside_bands (v : Q) (p : string)
    (table : list Breakpoint) (bl : Breakpoint) :
  breakpoints !! p = Some table -> last table = Some bl ->
  (normalize v p < 0)%Q \/ in_gap table (normalize v p) \/
    (Chigh bl < normalize v p)%Q ->
  calculate_aqi_subindex v p = Return (Ihigh bl).
Proof.
  intros Hp Hlast Hout.
  destruct (breakpoints_table_ok _ _ Hp) as [Hok _].
  apply (subindex_unmatched _ _ _ _ Hp Hlast).
  destruct Hout as [Hneg | [Hgap | Hbeyond]].
  - now apply negative_unmatched.
  - now apply gap_unmatched.
  - now apply (beyond_unmatched _ bl).
Qed.

Lemma subindex_outside_bands_witness :
  in_gap PM25_table (normalize 12.05 "PM2.5") /\
  calculate_aqi_subindex 12.05 "PM2.5" = Return 500.
Proof.
  assert (Hgap : in_gap PM25_table (normalize 12.05 "PM2.5")).
  { exists 0%nat, (BP 0.0 12.0 0 50), (BP 12.1 35.4 51 100).
    repeat split; reflexivity. }
  split; [exact Hgap |].
  apply (subindex_outside_bands 12.05 "PM2.5" PM25_table (BP 350.5 500.4 401 500)).
  - vm_compute. reflexivity.
  - reflexivity.
  - right. left. exact Hgap.
Defined.

(** C7, as stated, fails: the negative PM2.5 value -1 yields 500, the
    upper index of the last band, and not 0, the index at the lowest bound
    of the table. *)
Lemma negative_not_lowest_index :
  calculate_aqi_subindex (-1) "PM2.5" = Return 500 /\
  ~ negative_yields_lowest_index.
Proof.
  split; [vm_compute; reflexivity |].
  intros H.
  specialize (H "PM2.5" PM25_table (BP 0.0 12.0 0 50) (-1)%Q).
  assert (Hc : calculate_aqi_subindex (-1) "PM2.5" = Return 500)
    by (vm_compute; reflexivity).
  rewrite Hc in H. discriminate H; reflexivity.
Qed.

(** C7, amended: for a parameter with a table no out-of-domain value is
    rejected, and both a negative value and a value above the highest
    band yield the index at the highest bound of the table, the upper
    index of its last band; that index is not the one at the lowest
    bound. *)
Theorem out_of_domain_yields_ceiling (v : Q) (p : string)
    (table : list Breakpoint) (b0 bl : Breakpoint) :
  breakpoints !! p = Some table ->
  head table = Some b0 -> last table = Some bl ->
  (v < 0)%Q \/ (Chigh bl < normalize v p)%Q ->
  calculate_aqi_subindex v p = Return (Ihigh bl) /\ Ilow b0 < Ihigh bl.
Proof.
  intros Hp Hhead Hlast Hout.
  destruct (breakpoints_table_ok _ _ Hp) as [Hok _].
  split.
  - apply (subindex_unmatched _ _ _ _ Hp Hlast).
    destruct Hout as [Hneg | Hbeyond].
    + apply negative_unmatched; [assumption |].
      now apply normalize_negative.
    + now apply (beyond_unmatched _ bl).
  - apply breakpoints_lookup_items in Hp. unfold breakpoints_items in Hp.
    repeat (apply elem_of_cons in Hp as [[= -> ->] | Hp];
            [injection Hhead as <-; injection Hlast as <-; reflexivity |]).
    now apply elem_of_nil in Hp.
Qed.

Lemma out_of_domain_yields_ceiling_witness :
  ((-1 < 0)%Q \/ (Chigh (BP 350.5 500.4 401 500) < normalize (-1) "PM2.5")%Q) /\
  calculate_aqi_subindex (-1) "PM2.5" = Return 500 /\ 0 < 500.
Proof.
  split; [left; reflexivity |].
  apply (out_of_domain_yields_ceiling (-1) "PM2.5" PM25_table
           (BP 0.0 12.0 0 50) (BP 350.5 500.4 401 500)).
  - vm_compute. reflexivity.
  - reflexivity.
  - reflexivity.
  - left. reflexivity.
Defined.

(** ** Monotonicity *)

(** C5, as stated, fails: PM2.5 has a table, -1 <= 0, and the sub-index
    drops from 500 at -1 to 0 at 0. *)
Lemma subindex_not_monotone :
  calculate_aqi_subindex (-1) "PM2.5" = Return 500 /\
  calculate_aqi_subindex 0 "PM2.5" = Return 0 /\
  ~ subindex_monotone.
Proof.
  assert (H1 : calculate_aqi_subindex (-1) "PM2.5" = Return 500)
    by (vm_compute; reflexivity).
  assert (H2 : calculate_aqi_subindex 0 "PM2.5" = Return 0)
    by (vm_compute; reflexivity).
  split; [exact H1 |]. split; [exact H2 |].
  intros H.
  assert (Hle : 500 <= 0).
  { apply (H "PM2.5" (-1)%Q 0%Q 500 0); try assumption.
    - exists PM25_table. vm_compute. reflexivity.
    - vm_compute. discriminate. }
  lia.
Qed.

(** C5, amended: for a parameter with a table and values v1 <= v2, when
    the normalized v1 lies in a band of the table, both sub-indices are
    returned and the one of v1 is at most the one of v2. *)
Theorem subindex_monotone_from_band (p : string) (table : list Breakpoint)
    (v1 v2 : Q) :
  breakpoints !! p = Some table -> (v1 <= v2)%Q ->
  covered table (normalize v1 p) ->
  exists n1 n2, calculate_aqi_subindex v1 p = Return n1 /\
                calculate_aqi_subindex v2 p = Return n2 /\ n1 <= n2.
Proof.
  intros Hp Hv (i & b1 & Hi & Hin).
  apply (normalize_mono _ _ p) in Hv.
  destruct (breakpoints_table_ok _ _ Hp) as [Hok _].
  pose proof Hok as [Hbands Hsorted]. rewrite Forall_forall in Hbands.
  assert (Hb1 : b1 ∈ table) by (eapply list_elem_of_lookup_2; eauto).
  assert (Hin1 : (Clow b1 <= normalize v1 p)%Q /\ (normalize v1 p <= Chigh b1)%Q).
  { destruct Hin as [? Hhi]. destruct (Nat.eqb i (length table - 1)); split; lra. }
  destruct Hin1 as [Hlo1 Hhi1].
  destruct (band_result_bounds b1 _ (Hbands _ Hb1) Hlo1 Hhi1) as (n1 & Hr1 & Hn1).
  rewrite !(subindex_unfold _ _ _ Hp).
  rewrite (scan_covered _ _ _ _ Hok Hi Hin).
  destruct (scan _ _ _ (normalize v2 p)) as [r |] eqn:Hscan.
  - apply scan_some in Hscan as (b2 & Hb2 & Hlo2 & Hhi2 & ->).
    pose proof Hb2 as Hb2'.
    apply list_elem_of_lookup in Hb2' as [j Hj].
    destruct (Nat.lt_total j i) as [Hlt | [-> | Hgt]].
    + destruct (sorted_lookup_before _ _ _ _ _ Hsorted Hj Hi Hlt) as [? _]. lra.
    + rewrite Hi in Hj. injection Hj as <-.
      apply (band_result_mono b1 _ _ (Hbands _ Hb1) Hv).
    + destruct (sorted_lookup_before _ _ _ _ _ Hsorted Hi Hj Hgt) as [_ ?].
      destruct (band_result_bounds b2 _ (Hbands _ Hb2) Hlo2 Hhi2) as (n2 & Hr2 & Hn2).
      exists n1, n2. repeat split; try assumption. lia.
  - destruct (breakpoints_last _ _ Hp) as (bl & Hlast & _).
    destruct (last_tops _ _ _ Hok Hlast Hb1) as [_ ?].
    unfold last_Ihigh. rewrite Hlast.
    exists n1, (Ihigh bl). repeat split; try assumption. lia.
Qed.

Lemma subindex_monotone_from_band_witness :
  covered PM25_table (normalize 11 "PM2.5") /\
  exists n1 n2, calculate_aqi_subindex 11 "PM2.5" = Return n1 /\
                calculate_aqi_subindex 12.1 "PM2.5" = Return n2 /\ n1 <= n2.
Proof.
  assert (Hc : covered PM25_table (normalize 11 "PM2.5")).
  { exists 0%nat, (BP 0.0 12.0 0 50). repeat split; vm_compute; congruence. }
  split; [exact Hc |].
  apply (subindex_monotone_from_band "PM2.5" PM25_table 11 12.1).
  - vm_compute. reflexivity.
  - vm_compute. discriminate.
  - exact Hc.
Defined.

(** ** Band boundaries *)

(** C2: the code at the two PM2.5 boundary values.  12.1 opens the second
    band and yields 51; 12.0, the upper bound of the first band, is
    matched by no band and yields 500 instead of the 50 that the first
    row of the table assigns to it. *)
Theorem pm25_boundary_values :
  calculate_aqi_subindex 12.0 "PM2.5" = Return 500 /\
  calculate_aqi_subindex 12.1 "PM2.5" = Return 51 /\
  band_result (BP 0.0 12.0 0 50) 12.0 = Return 50.
Proof. repeat split; vm_compute; reflexivity. Qed.

(** C4: CO values are divided by 1000, so 4400 normalizes to 4.4, the
    upper bound of the first CO band; there the code yields 500 instead
    of the 50 that the first row of the table assigns to 4.4. *)
Theorem co_boundary_value :
  (forall v : Q, normalize v "CO" = (v / 1000.0)%Q) /\
  (normalize 4400 "CO" == 4.4)%Q /\
  calculate_aqi_subindex 4400 "CO" = Return 500 /\
  band_result (BP 0.0 4.4 0 50) 4.4 = Return 50.
Proof.
  split; [intros v; reflexivity |].
  repeat split; vm_compute; reflexivity.
Qed.

(** ** Categories *)

Section Categories.

Lemma in_category_inv (c : string) (n : Z) :
  in_category c n = true ->
  (c = "Good" /\ 0 <= n <= 50) \/ (c = "Moderate" /\ 51 <= n <= 100) \/
  (c = "Poor" /\ 101 <= n <= 150) \/ (c = "Unhealthy" /\ 151 <= n <= 200) \/
  (c = "Severe" /\ 201 <= n <= 300) \/ (c = "Hazardous" /\ 301 <= n).
Proof.
  unfold in_category.
  repeat match goal with
         | |- context [String.eqb c ?k] =>
             destruct (String.eqb_spec c k) as [-> | _]
         end; try discriminate; intros H;
    rewrite ?andb_true_iff, ?Z.leb_le in H; intuition lia.
Qed.

Lemma get_aqi_category_cases (n : Z) :
  (n <= 50 /\ (get_aqi_category n).1 = "Good") \/
  (51 <= n <= 100 /\ (get_aqi_category n).1 = "Moderate") \/
  (101 <= n <= 150 /\ (get_aqi_category n).1 = "Poor") \/
  (151 <= n <= 200 /\ (get_aqi_category n).1 = "Unhealthy") \/
  (201 <= n <= 300 /\ (get_aqi_category n).1 = "Severe") \/
  (301 <= n /\ (get_aqi_category n).1 = "Hazardous").
Proof.
  unfold get_aqi_category.
  repeat match goal with
         | |- context [if ?c then _ else _] => destruct c eqn:?
         end; simpl;
    rewrite ?andb_true_iff, ?andb_false_iff, ?Z.leb_le, ?Z.leb_gt in *;
    intuition lia.
Qed.

End Categories.

(** C8: for every integer from 0 to 1000 exactly one category range holds
    the value, and it is the category the classifier returns; 50 is Good,
    51 Moderate, 150 Poor, 151 Unhealthy, 300 Severe, 301 Hazardous; every
    value above 300, however large, is Hazardous. *)
Theorem category_classification (n : Z) :
  0 <= n <= 1000 ->
  (in_category (get_aqi_category n).1 n = true /\
   forall c, in_category c n = true -> c = (get_aqi_category n).1) /\
  ((get_aqi_category 50).1 = "Good" /\ (get_aqi_category 51).1 = "Moderate" /\
   (get_aqi_category 150).1 = "Poor" /\ (get_aqi_category 151).1 = "Unhealthy" /\
   (get_aqi_category 300).1 = "Severe" /\ (get_aqi_category 301).1 = "Hazardous") /\
  (forall m, 300 < m -> (get_aqi_category m).1 = "Hazardous").
Proof.
  intros Hn. split; [| split].
  - split.
    + destruct (get_aqi_category_cases n) as [[? ->] | [[? ->] | [[? ->] | [[? ->] | [[? ->] | [? ->]]]]]];
        unfold in_category; simpl;
        rewrite ?andb_true_iff, ?Z.leb_le; lia.
    + intros c Hc. apply in_category_inv in Hc.
      destruct (get_aqi_category_cases n) as [[? ->] | [[? ->] | [[? ->] | [[? ->] | [[? ->] | [? ->]]]]]];
        intuition (subst; solve [reflexivity | lia]).
  - repeat split; reflexivity.
  - intros m Hm.
    destruct (get_aqi_category_cases m) as [[? ?] | [[? ?] | [[? ?] | [[? ?] | [[? ?] | [? ?]]]]]];
      solve [assumption | lia].
Qed.

Lemma category_classification_witness :
  0 <= 150 <= 1000 /\ in_category "Poor" 150 = true /\
  (get_aqi_category 150).1 = "Poor".
Proof.
  split; [lia |].
  destruct (category_classification 150 ltac:(lia)) as [[H _] [(_ & _ & Hp & _) _]].
  split; [exact H | exact Hp].
Defined.

(** ** The column of sub-indices and its maximum *)

Section Resolve.

Implicit Types (latest : list Reading) (row : Reading) (column : list Z).

Lemma subindex_of_returns row :
  calculate_aqi_subindex (value row) (parameter row) = Return (subindex_of row).
Proof.
  unfold subindex_of.
  destruct (subindex_total (value row) (parameter row)) as (n & -> & _).
  reflexivity.
Qed.

Lemma subindex_of_nonneg row : 0 <= subindex_of row.
Proof.
  pose proof (subindex_of_returns row) as H.
  destruct (subindex_total (value row) (parameter row)) as (n & Hn & Hr).
  rewrite Hn in H. injection H as <-. lia.
Qed.

Lemma subindex_no_table row :
  ~ has_table row ->
  calculate_aqi_subindex (value row) (parameter row) = Return 0.
Proof.
  unfold has_table, calculate_aqi_subindex. intros H.
  destruct (breakpoints !! parameter row); [| reflexivity].
  exfalso. apply H. eauto.
Qed.

Lemma aqi_subindex_column_returns latest :
  aqi_subindex_column latest = Return (subindex_of <$> latest).
Proof.
  unfold aqi_subindex_column.
  induction latest as [| row latest IH]; [reflexivity |].
  cbn [mapM fmap list_fmap]. rewrite subindex_of_returns, IH. reflexivity.
Qed.

Lemma foldl_max_elem (x : Z) column : foldl Z.max x column ∈ x :: column.
Proof.
  revert x. induction column as [| y column IH]; intros x; simpl; [left |].
  destruct (Z.max_spec x y) as [[_ ->] | [_ ->]].
  - right. apply IH.
  - specialize (IH x). apply elem_of_cons in IH as [-> | IH]; [left |].
    right. now right.
Qed.

Lemma foldl_max_upper (x : Z) column (y : Z) :
  y ∈ x :: column -> y <= foldl Z.max x column.
Proof.
  revert x y. induction column as [| z column IH]; intros x y Hy; simpl.
  - apply list_elem_of_singleton in Hy. lia.
  - apply elem_of_cons in Hy as [-> | Hy].
    + transitivity (Z.max x z); [lia | apply IH; left].
    + apply elem_of_cons in Hy as [-> | Hy].
      * transitivity (Z.max x z); [lia | apply IH; left].
      * apply IH. now right.
Qed.

Lemma series_max_greatest column :
  column <> [] ->
  exists m, series_max column = Some m /\ m ∈ column /\
            forall y, y ∈ column -> y <= m.
Proof.
  destruct column as [| x column]; [congruence | intros _].
  exists (foldl Z.max x column). split; [reflexivity |].
  split; [apply foldl_max_elem | apply foldl_max_upper].
Qed.

Lemma resolve_returns latest (m : Z) :
  series_max (subindex_of <$> latest) = Some m ->
  resolve latest =
    Return (Some (mkAqiResult (subindex_of <$> latest) m
                    (get_aqi_category m).1 (get_aqi_category m).2)).
Proof.
  intros H. unfold resolve. rewrite aqi_subindex_column_returns.
  cbn [mbind outcome_bind]. now rewrite H.
Qed.

End Resolve.

(** C1: on every non-empty frame of latest readings the resolver returns,
    as overall AQI, the greatest entry of the column of sub-indices: an
    entry of the column that no entry exceeds.  The readings PM2.5 25.9,
    NO2 42 and O3 169.8 have the sub-indices 80, 40 and 150; their overall
    AQI is 150 (not the mean 90) and the category is "Poor". *)
Theorem resolve_takes_maximum (latest : list Reading) :
  latest <> [] ->
  (exists r, resolve latest = Return (Some r) /\
             aqi_subindex_column latest = Return (aqi_subindex r) /\
             current_aqi r ∈ aqi_subindex r /\
             (forall x, x ∈ aqi_subindex r -> x <= current_aqi r) /\
             category r = (get_aqi_category (current_aqi r)).1) /\
  (exists d,
     resolve [ mkReading 0 "PM2.5" 25.9 "ug/m3" 1;
               mkReading 0 "NO2" 42 "ppb" 2;
               mkReading 0 "O3" 169.8 "ppb" 3 ]
     = Return (Some (mkAqiResult [80; 40; 150] 150 "Poor" d))).
Proof.
  intros Hne. split.
  - assert (Hcol : subindex_of <$> latest <> []).
    { destruct latest; [congruence | discriminate]. }
    destruct (series_max_greatest _ Hcol) as (m & Hm & Hin & Hub).
    eexists. split; [apply (resolve_returns _ m Hm) |]. simpl.
    split; [apply aqi_subindex_column_returns |]. auto.
  - eexists. vm_compute. reflexivity.
Qed.

Lemma resolve_takes_maximum_witness :
  [ mkReading 0 "PM2.5" 25.9 "ug/m3" 1; mkReading 0 "Relative Humidity" 40 "%" 2 ] <> [] /\
  exists r, resolve [ mkReading 0 "PM2.5" 25.9 "ug/m3" 1;
                      mkReading 0 "Relative Humidity" 40 "%" 2 ] = Return (Some r) /\
            current_aqi r ∈ aqi_subindex r.
Proof.
  split; [discriminate |].
  destruct (resolve_takes_maximum
              [ mkReading 0 "PM2.5" 25.9 "ug/m3" 1;
                mkReading 0 "Relative Humidity" 40 "%" 2 ]
              ltac:(discriminate)) as [(r & Hr & _ & Hin & _) _].
  exists r. split; [exact Hr | exact Hin].
Defined.

(** ** Parameters without a table *)

(** C3, as stated, fails: a frame holding one humidity reading has the
    column of sub-indices [0], not the empty column of its rows with a
    table, and its overall AQI is 0, "Good". *)
Lemma tableless_row_counts :
  aqi_subindex_column [ mkReading 0 "Relative Humidity" 45 "%" 1 ] = Return [0] /\
  aqi_subindex_column (tabled [ mkReading 0 "Relative Humidity" 45 "%" 1 ]) = Return [] /\
  ~ tableless_absent.
Proof.
  assert (H1 : aqi_subindex_column [ mkReading 0 "Relative Humidity" 45 "%" 1 ]
               = Return [0]) by (vm_compute; reflexivity).
  assert (H2 : aqi_subindex_column (tabled [ mkReading 0 "Relative Humidity" 45 "%" 1 ])
               = Return []) by (vm_compute; reflexivity).
  split; [exact H1 |]. split; [exact H2 |].
  intros H. specialize (H [ mkReading 0 "Relative Humidity" 45 "%" 1 ]).
  rewrite H1, H2 in H. discriminate H.
Qed.

(** C3, amended: a row whose parameter has no table yields the sub-index
    0, which is an entry of the column like any other.  No sub-index is
    negative, so when some row of a frame has a table the overall AQI of
    the frame equals the overall AQI of its rows with a table; when no row
    has a table the overall AQI is 0 and the category "Good". *)
Theorem tableless_rows_yield_zero (latest : list Reading) :
  latest <> [] ->
  Forall (fun row => ~ has_table row ->
            calculate_aqi_subindex (value row) (parameter row) = Return 0) latest /\
  exists r, resolve latest = Return (Some r) /\
            length (aqi_subindex r) = length latest /\
            (tabled latest <> [] ->
             exists r', resolve (tabled latest) = Return (Some r') /\
                        current_aqi r = current_aqi r') /\
            (tabled latest = [] -> current_aqi r = 0 /\ category r = "Good").
Proof.
  intros Hne. split.
  { apply Forall_forall. intros row _. apply subindex_no_table. }
  assert (Hcol : subindex_of <$> latest <> []).
  { destruct latest; [congruence | discriminate]. }
  destruct (series_max_greatest _ Hcol) as (m & Hm & Hin & Hub).
  eexists. split; [apply (resolve_returns _ m Hm) |]. simpl.
  split; [apply length_fmap |].
  apply list_elem_of_fmap in Hin as (row & -> & Hrow).
  split.
  - intros Htab.
    assert (Hcol' : subindex_of <$> tabled latest <> []).
    { destruct (tabled latest); [congruence | discriminate]. }
    destruct (series_max_greatest _ Hcol') as (m' & Hm' & Hin' & Hub').
    eexists. split; [apply (resolve_returns _ m' Hm') |]. simpl.
    apply list_elem_of_fmap in Hin' as (row' & -> & Hrow').
    apply Z.le_antisymm.
    + destruct (decide (has_table row)) as [Hyes | Hno].
      * apply Hub'. apply list_elem_of_fmap. exists row. split; [reflexivity |].
        apply list_elem_of_filter. auto.
      * pose proof (subindex_of_returns row) as Hret.
        rewrite (subindex_no_table _ Hno) in Hret. injection Hret as <-.
        apply subindex_of_nonneg.
    + apply Hub. apply list_elem_of_fmap. exists row'. split; [reflexivity |].
      apply list_elem_of_filter in Hrow'. tauto.
  - intros Htab.
    assert (Hno : ~ has_table row).
    { intros Hyes.
      assert (Hin : row ∈ tabled latest) by (apply list_elem_of_filter; auto).
      rewrite Htab in Hin. now apply elem_of_nil in Hin. }
    pose proof (subindex_of_returns row) as Hret.
    rewrite (subindex_no_table _ Hno) in Hret. injection Hret as <-.
    split; reflexivity.
Qed.

Lemma tableless_rows_yield_zero_witness :
  [ mkReading 0 "Relative Humidity" 45 "%" 1 ] <> [] /\
  exists r, resolve [ mkReading 0 "Relative Humidity" 45 "%" 1 ] = Return (Some r) /\
            length (aqi_subindex r) = 1%nat.
Proof.
  split; [discriminate |].
  destruct (tableless_rows_yield_zero
              [ mkReading 0 "Relative Humidity" 45 "%" 1 ]
              ltac:(discriminate)) as [_ (r & Hr & Hlen & _)].
  exists r. split; [exact Hr | exact Hlen].
Defined.

(** ** The latest reading of each parameter *)

Section Latest.

Implicit Types (rows : list Reading) (r : Reading) (k : string).

#[local] Instance earlier_eq_transitive : Transitive earlier_eq.
Proof. unfold earlier_eq. intros x y z. lia. Qed.

#[local] Instance earlier_eq_total : Total earlier_eq.
Proof. unfold earlier_eq. intros x y. lia. Qed.

Lemma sort_values_elem rows r : r ∈ sort_values rows <-> r ∈ rows.
Proof. unfold sort_values. now rewrite merge_sort_Permutation. Qed.

Lemma sort_values_sorted rows : StronglySorted earlier_eq (sort_values rows).
Proof. apply StronglySorted_merge_sort; apply _. Qed.

Lemma group_keys_elem rows k :
  k ∈ group_keys rows <-> exists r, r ∈ rows /\ parameter r = k.
Proof.
  unfold group_keys.
  rewrite merge_sort_Permutation, elem_of_remove_dups, list_elem_of_fmap.
  split; intros (r & ? & ?); exists r; auto.
Qed.

Lemma group_keys_NoDup rows : NoDup (group_keys rows).
Proof.
  unfold group_keys. rewrite merge_sort_Permutation. apply NoDup_remove_dups.
Qed.

(** In a frame sorted by time the last row of a group is its latest. *)
Lemma last_group_latest rows k r :
  StronglySorted earlier_eq rows -> last (group k rows) = Some r ->
  parameter r = k /\ r ∈ rows /\
  forall x, x ∈ rows -> parameter x = k -> datetime_utc x <= datetime_utc r.
Proof.
  intros Hsorted Hlast.
  assert (Hr : parameter r = k /\ r ∈ rows).
  { apply last_Some_elem_of in Hlast. now apply list_elem_of_filter in Hlast. }
  destruct Hr as [Hk Hr]. split; [exact Hk |]. split; [exact Hr |].
  clear Hr. revert Hlast.
  induction Hsorted as [| a l _ IH Ha]; intros Hlast x Hx Hxk.
  - now apply elem_of_nil in Hx.
  - unfold group in *. rewrite filter_cons in Hlast.
    destruct (decide (parameter a = k)) as [Hak | Hak].
    + destruct (filter (fun r => parameter r = k) l) as [| y g] eqn:Hg.
      * injection Hlast as <-.
        apply elem_of_cons in Hx as [-> | Hx]; [lia |].
        exfalso. exact (filter_nil_not_elem_of _ _ _ Hg Hxk Hx).
      * rewrite last_cons_cons in Hlast.
        apply elem_of_cons in Hx as [-> | Hx]; [| now apply IH].
        assert (Hrl : r ∈ l).
        { apply last_Some_elem_of in Hlast. rewrite <- Hg in Hlast.
          now apply list_elem_of_filter in Hlast. }
        rewrite Forall_forall in Ha. exact (Ha _ Hrl).
    + apply elem_of_cons in Hx as [-> | Hx]; [congruence | now apply IH].
Qed.

(** One row per key: the rows of key [k] among the rows picked for the
    keys [keys]. *)
Lemma group_omap_other (f : string -> option Reading) (keys : list string) k :
  (forall k' r, f k' = Some r -> parameter r = k') -> k ∉ keys ->
  group k (omap f keys) = [].
Proof.
  intros Hf Hk. unfold group.
  induction keys as [| k0 keys IH]; [reflexivity |].
  apply not_elem_of_cons in Hk as [Hne Hk]. simpl.
  destruct (f k0) as [r |] eqn:Hr; [| now apply IH].
  rewrite filter_cons_False; [now apply IH |].
  rewrite (Hf _ _ Hr). congruence.
Qed.

Lemma group_omap_key (f : string -> option Reading) (keys : list string) k r :
  (forall k' r, f k' = Some r -> parameter r = k') -> NoDup keys ->
  k ∈ keys -> f k = Some r ->
  group k (omap f keys) = [r].
Proof.
  intros Hf Hnd Hk Hr.
  induction Hnd as [| k0 keys Hk0 Hnd IH]; [now apply elem_of_nil in Hk |].
  simpl. destruct (decide (k = k0)) as [<- | Hne].
  - rewrite Hr. unfold group. rewrite filter_cons_True by eauto.
    f_equal. now apply group_omap_other.
  - apply elem_of_cons in Hk as [? | Hk]; [congruence |].
    destruct (f k0) as [r0 |] eqn:Hr0; [| now apply IH].
    unfold group. rewrite filter_cons_False; [now apply IH |].
    rewrite (Hf _ _ Hr0). congruence.
Qed.

Lemma groupby_last_group rows r0 :
  r0 ∈ rows ->
  exists r, last (group (parameter r0) rows) = Some r /\
            group (parameter r0) (groupby_last rows) = [r].
Proof.
  intros Hr0.
  assert (Hsome : is_Some (last (group (parameter r0) rows))).
  { apply last_is_Some. intros Hnil.
    eapply filter_nil_not_elem_of; [exact Hnil | | exact Hr0]. reflexivity. }
  destruct Hsome as [r Hr]. exists r. split; [exact Hr |].
  unfold groupby_last. apply group_omap_key.
  - intros k' r' Hlast. apply last_Some_elem_of in Hlast.
    now apply list_elem_of_filter in Hlast.
  - apply group_keys_NoDup.
  - apply group_keys_elem. eauto.
  - exact Hr.
Qed.

End Latest.

(** C9: of two readings of a frame with the same (renamed) parameter and
    different timestamps the aggregation never keeps the earlier one.  It
    keeps exactly one row for that parameter, a row of the frame whose
    timestamp no reading of the parameter exceeds; when the two are the
    only readings of the parameter it is the later one, wherever the two
    stand in the frame. *)
Theorem latest_data_keeps_later (location_data : list Reading)
    (r1 r2 : Reading) :
  r1 ∈ location_data -> r2 ∈ location_data ->
  map_parameter (parameter r1) = map_parameter (parameter r2) ->
  datetime_utc r1 < datetime_utc r2 ->
  exists r,
    group (map_parameter (parameter r2)) (latest_data location_data) = [r] /\
    r ∈ rename_parameter <$> location_data /\
    (forall x, x ∈ location_data ->
               map_parameter (parameter x) = map_parameter (parameter r2) ->
               datetime_utc x <= datetime_utc r) /\
    datetime_utc r1 < datetime_utc r /\
    ((forall x, x ∈ location_data ->
                map_parameter (parameter x) = map_parameter (parameter r2) ->
                x = r1 \/ x = r2) ->
     r = rename_parameter r2).
Proof.
  intros H1 H2 Hsame Hlt.
  set (S := sort_values (rename_parameter <$> location_data)).
  assert (HS : forall x, x ∈ location_data -> rename_parameter x ∈ S).
  { intros x Hx. apply sort_values_elem, list_elem_of_fmap. eauto. }
  destruct (groupby_last_group S _ (HS _ H2)) as (r & Hlast & Hgroup).
  destruct (last_group_latest _ _ _ (sort_values_sorted _) Hlast)
    as (Hk & Hr & Hmax).
  simpl in Hk, Hgroup.
  assert (Hall : forall x, x ∈ location_data ->
            map_parameter (parameter x) = map_parameter (parameter r2) ->
            datetime_utc x <= datetime_utc r).
  { intros x Hx Hxk. apply (Hmax (rename_parameter x)); auto. }
  exists r. split; [exact Hgroup |].
  apply (proj1 (sort_values_elem _ _)) in Hr.
  split; [exact Hr |]. split; [exact Hall |].
  split; [specialize (Hall _ H2 eq_refl); lia |].
  intros Honly.
  apply list_elem_of_fmap in Hr as (x & -> & Hx).
  destruct (Honly x Hx Hk) as [-> | ->]; [| reflexivity].
  specialize (Hall _ H2 eq_refl). simpl in Hall. lia.
Qed.

Lemma latest_data_keeps_later_witness :
  datetime_utc (mkReading 1 "pm25" 30 "ug/m3" 7) <
    datetime_utc (mkReading 2 "PM2.5" 10 "ug/m3" 8) /\
  group "PM2.5"
    (latest_data [ mkReading 2 "PM2.5" 10 "ug/m3" 8;
                   mkReading 1 "pm25" 30 "ug/m3" 7;
                   mkReading 3 "o3" 20 "ppb" 9 ])
  = [ mkReading 2 "PM2.5" 10 "ug/m3" 8 ].
Proof.
  split; [reflexivity |].
  destruct (latest_data_keeps_later
              [ mkReading 2 "PM2.5" 10 "ug/m3" 8;
                mkReading 1 "pm25" 30 "ug/m3" 7;
                mkReading 3 "o3" 20 "ppb" 9 ]
              (mkReading 1 "pm25" 30 "ug/m3" 7)
              (mkReading 2 "PM2.5" 10 "ug/m3" 8))
    as (r & Hgroup & _ & _ & _ & Honly).
  - right. left.
  - left.
  - reflexivity.
  - reflexivity.
  - rewrite Honly in Hgroup; [exact Hgroup |].
    intros x Hx Hk.
    apply elem_of_cons in Hx as [-> | Hx]; [now right |].
    apply elem_of_cons in Hx as [-> | Hx]; [now left |].
    apply list_elem_of_singleton in Hx as ->. discriminate Hk.
Defined.

(** * Further properties of the computation *)

(** ** Sub-index and category of a value inside a band *)

Section BandValues.

Implicit Types (table : list Breakpoint) (b : Breakpoint) (v : Q) (p : string).

Lemma subindex_covered v p table i b :
  breakpoints !! p = Some table -> table !! i = Some b ->
  in_band (Nat.eqb i (length table - 1)) b (normalize v p) ->
  calculate_aqi_subindex v p = band_result b (normalize v p).
Proof.
  intros Hp Hi Hin.
  destruct (breakpoints_table_ok _ _ Hp) as [Hok _].
  rewrite (subindex_unfold _ _ _ Hp).
  now rewrite (scan_covered _ _ _ _ Hok Hi Hin).
Qed.

Lemma in_band_closed (l : bool) b v :
  in_band l b v -> (Clow b <= v)%Q /\ (v <= Chigh b)%Q.
Proof. unfold in_band. destruct l; intros [? ?]; split; lra. Qed.

Lemma index_ranges p table i b :
  breakpoints !! p = Some table -> table !! i = Some b ->
  exists c, band_categories !! i = Some c /\
            forall n, Ilow b <= n <= Ihigh b -> (get_aqi_category n).1 = c.
Proof.
  intros Hp Hi. apply breakpoints_lookup_items in Hp.
  unfold breakpoints_items in Hp.
  repeat (apply elem_of_cons in Hp as [[= -> ->] | Hp];
          [repeat (destruct i as [| i];
                   [injection Hi as <-; eexists; split; [reflexivity |];
                    simpl; intros n Hn;
                    destruct (get_aqi_category_cases n)
                      as [[? ->] | [[? ->] | [[? ->] | [[? ->] | [[? ->] | [? ->]]]]]];
                    solve [reflexivity | lia]
                   | simpl in Hi]);
           discriminate Hi |]).
  now apply elem_of_nil in Hp.
Qed.

End BandValues.

(** X1: a value that a band of the table holds (after the unit conversion)
    gets a sub-index within the index range of that band: the earlier
    bands are passed over and the interpolation stays between the two
    index bounds. *)
Theorem subindex_within_band (v : Q) (p : string) (table : list Breakpoint)
    (i : nat) (b : Breakpoint) :
  breakpoints !! p = Some table -> table !! i = Some b ->
  in_band (Nat.eqb i (length table - 1)) b (normalize v p) ->
  exists n, calculate_aqi_subindex v p = Return n /\ Ilow b <= n <= Ihigh b.
Proof.
  intros Hp Hi Hin.
  destruct (breakpoints_table_ok _ _ Hp) as [[Hbands _] _].
  rewrite Forall_forall in Hbands.
  rewrite (subindex_covered _ _ _ _ _ Hp Hi Hin).
  destruct (in_band_closed _ _ _ Hin) as [Hlo Hhi].
  apply band_result_bounds; [| assumption | assumption].
  apply Hbands. eapply list_elem_of_lookup_2; eauto.
Qed.

Lemma subindex_within_band_witness :
  in_band (Nat.eqb 1 (length PM25_table - 1)) (BP 12.1 35.4 51 100)
    (normalize 20 "PM2.5") /\
  exists n, calculate_aqi_subindex 20 "PM2.5" = Return n /\ 51 <= n <= 100.
Proof.
  assert (Hin : in_band (Nat.eqb 1 (length PM25_table - 1)) (BP 12.1 35.4 51 100)
                  (normalize 20 "PM2.5")) by (split; vm_compute; congruence).
  split; [exact Hin |].
  apply (subindex_within_band 20 "PM2.5" PM25_table 1 (BP 12.1 35.4 51 100)).
  - vm_compute. reflexivity.
  - reflexivity.
  - exact Hin.
Defined.

(** X2: the category of a reading follows the position of its band: in
    every table the first five bands classify as Good, Moderate, Poor,
    Unhealthy and Severe, and the sixth and seventh as Hazardous. *)
Theorem category_of_band (v : Q) (p : string) (table : list Breakpoint)
    (i : nat) (b : Breakpoint) :
  breakpoints !! p = Some table -> table !! i = Some b ->
  in_band (Nat.eqb i (length table - 1)) b (normalize v p) ->
  exists n, calculate_aqi_subindex v p = Return n /\
            band_categories !! i = Some (get_aqi_category n).1.
Proof.
  intros Hp Hi Hin.
  destruct (breakpoints_table_ok _ _ Hp) as [[Hbands _] _].
  rewrite Forall_forall in Hbands.
  rewrite (subindex_covered _ _ _ _ _ Hp Hi Hin).
  destruct (in_band_closed _ _ _ Hin) as [Hlo Hhi].
  destruct (band_result_bounds b _ (Hbands b ltac:(eapply list_elem_of_lookup_2; eauto)) Hlo Hhi)
    as (n & Hn & Hr).
  destruct (index_ranges _ _ _ _ Hp Hi) as (c & Hc & Hcat).
  exists n. split; [exact Hn |]. now rewrite (Hcat n Hr).
Qed.

Lemma category_of_band_witness :
  in_band (Nat.eqb 2 (length O3_table - 1)) (BP 71 85 101 150)
    (normalize 150 "O3") /\
  exists n, calculate_aqi_subindex 150 "O3" = Return n /\
            Some "Poor" = Some (get_aqi_category n).1.
Proof.
  assert (Hin : in_band (Nat.eqb 2 (length O3_table - 1)) (BP 71 85 101 150)
                  (normalize 150 "O3")) by (split; vm_compute; congruence).
  split; [exact Hin |].
  apply (category_of_band 150 "O3" O3_table 2 (BP 71 85 101 150)).
  - vm_compute. reflexivity.
  - reflexivity.
  - exact Hin.
Defined.

(** X3: a value that normalizes to the lower bound of a band gets exactly
    the lower index of that band, in every table and for every band. *)
Theorem subindex_at_band_start (v : Q) (p : string) (table : list Breakpoint)
    (i : nat) (b : Breakpoint) :
  breakpoints !! p = Some table -> table !! i = Some b ->
  (normalize v p == Clow b)%Q ->
  calculate_aqi_subindex v p = Return (Ilow b).
Proof.
  intros Hp Hi Hv.
  destruct (breakpoints_table_ok _ _ Hp) as [[Hbands _] _].
  rewrite Forall_forall in Hbands.
  assert (Hb : band_ok b) by (apply Hbands; eapply list_elem_of_lookup_2; eauto).
  pose proof Hb as (_ & Hc & _).
  assert (Hin : in_band (Nat.eqb i (length table - 1)) b (normalize v p)).
  { unfold in_band. destruct (Nat.eqb i (length table - 1)); split; lra. }
  rewrite (subindex_covered _ _ _ _ _ Hp Hi Hin).
  unfold band_result. rewrite (interpolate_returns b Hb). simpl.
  f_equal. apply Z.le_antisymm.
  - apply (round_between _ (Ilow b) (Ilow b)).
    + eapply interpolate_lower; eauto using interpolate_returns. lra.
    + eapply Qle_trans.
      * eapply (interpolate_mono b Hb (normalize v p) (Clow b));
          eauto using interpolate_returns. lra.
      * lra.
  - apply (round_between _ (Ilow b) (Ihigh b)).
    + eapply interpolate_lower; eauto using interpolate_returns. lra.
    + eapply interpolate_upper; eauto using interpolate_returns. lra.
Qed.

Lemma subindex_at_band_start_witness :
  (normalize 9500 "CO" == Clow (BP 9.5 12.4 101 150))%Q /\
  calculate_aqi_subindex 9500 "CO" = Return 101.
Proof.
  split; [reflexivity |].
  apply (subindex_at_band_start 9500 "CO" CO_table 2 (BP 9.5 12.4 101 150)).
  - vm_compute. reflexivity.
  - reflexivity.
  - reflexivity.
Defined.

(** ** Order of the categories *)

(** X4: the classification is monotone: a greater index value never falls
    into an earlier branch of the classifier, so a higher AQI is never
    given a milder category. *)
Theorem category_monotone (n m : Z) :
  n <= m ->
  (severity (get_aqi_category n).1 <= severity (get_aqi_category m).1)%nat.
Proof.
  intros Hnm.
  destruct (get_aqi_category_cases n)
    as [[? ->] | [[? ->] | [[? ->] | [[? ->] | [[? ->] | [? ->]]]]]];
    destruct (get_aqi_category_cases m)
      as [[? ->] | [[? ->] | [[? ->] | [[? ->] | [[? ->] | [? ->]]]]]];
    unfold severity; simpl; lia.
Qed.

Lemma category_monotone_witness :
  100 <= 101 /\
  (severity (get_aqi_category 100).1 <= severity (get_aqi_category 101).1)%nat.
Proof.
  split; [lia |]. apply (category_monotone 100 101). lia.
Defined.

(** ** Parameter names *)

Section Names.

Lemma map_parameter_cases (p : string) :
  (parameter_mapping !! p = None /\ map_parameter p = p) \/
  (p, map_parameter p) ∈
    [ ("pm25", "PM2.5"); ("pm10", "PM10"); ("no2", "NO2"); ("co", "CO");
      ("so2", "SO2"); ("o3", "O3"); ("rh", "Relative Humidity") ].
Proof.
  unfold map_parameter.
  destruct (parameter_mapping !! p) as [q |] eqn:Hq; [right | left; auto].
  apply elem_of_list_to_map_2 in Hq. exact Hq.
Qed.

End Names.

(** X5: the renamed parameter of a reading has a breakpoint table exactly
    when the reading carries one of the six API names pm25, pm10, no2, co,
    so2, o3 or one of the six display names; every other name, such as rh
    or unknown, stays without a table. *)
Theorem tabled_parameter_names (p : string) :
  is_Some (breakpoints !! map_parameter p) <-> p ∈ pollutant_names.
Proof.
  split.
  - intros [table Ht].
    destruct (map_parameter_cases p) as [[_ Hp] | Hp].
    + rewrite Hp in Ht. apply breakpoints_lookup_items in Ht.
      unfold breakpoints_items in Ht. unfold pollutant_names.
      repeat (apply elem_of_cons in Ht as [[= -> ->] | Ht];
              [solve [repeat first [left; fail | right]] |]).
      now apply elem_of_nil in Ht.
    + unfold pollutant_names.
      repeat (apply elem_of_cons in Hp as [[= -> Hm] | Hp];
              [first [solve [repeat first [left; fail | right]]
                     | rewrite Hm in Ht; vm_compute in Ht; discriminate Ht] |]).
      now apply elem_of_nil in Hp.
  - unfold pollutant_names. intros Hp.
    repeat (apply elem_of_cons in Hp as [-> | Hp];
            [eexists; vm_compute; reflexivity |]).
    now apply elem_of_nil in Hp.
Qed.

(** X6: renaming is idempotent: a display name is never itself a key of
    the renaming, so renaming a frame twice equals renaming it once. *)
Theorem map_parameter_idempotent (p : string) :
  map_parameter (map_parameter p) = map_parameter p.
Proof.
  destruct (map_parameter_cases p) as [[_ Hp] | Hp].
  - now rewrite Hp.
  - repeat (apply elem_of_cons in Hp as [[= -> ->] | Hp]; [reflexivity |]).
    now apply elem_of_nil in Hp.
Qed.

(** ** The frame of latest readings *)

Section LatestFrame.

Implicit Types (rows : list Reading) (r : Reading) (k : string).

#[local] Instance string_le_transitive : Transitive string_le.
Proof.
  intros x y z Hxy Hyz. unfold string_le in *.
  apply Is_true_true. apply Is_true_true in Hxy, Hyz.
  exact (transitivity (R := String.le) Hxy Hyz).
Qed.

#[local] Instance string_le_total : Total string_le.
Proof. intros x y. apply String.leb_total. Qed.

#[local] Instance string_le_antisymm : AntiSymm (=) string_le.
Proof. intros x y. apply String.leb_antisym. Qed.

Lemma group_keys_sorted rows : StronglySorted string_le (group_keys rows).
Proof. apply StronglySorted_merge_sort; apply _. Qed.


Lemma groupby_last_pick rows k :
  k ∈ group_keys rows ->
  exists r, last (group k rows) = Some r /\ parameter r = k /\ r ∈ rows.
Proof.
  intros Hk. apply group_keys_elem in Hk as (r0 & Hr0 & <-).
  destruct (groupby_last_group rows r0 Hr0) as (r & Hr & _).
  exists r. split; [exact Hr |].
  apply last_Some_elem_of, list_elem_of_filter in Hr. exact Hr.
Qed.

Lemma groupby_last_parameters rows :
  parameter <$> groupby_last rows = group_keys rows.
Proof.
  unfold groupby_last.
  assert (H : forall k, k ∈ group_keys rows ->
                exists r, last (group k rows) = Some r /\ parameter r = k).
  { intros k Hk. destruct (groupby_last_pick rows k Hk) as (r & ? & ? & _). eauto. }
  induction (group_keys rows) as [| k keys IH]; [reflexivity |].
  simpl. destruct (H k) as (r & -> & Hr); [left |].
  simpl. rewrite Hr. f_equal. apply IH. intros k' Hk'. apply H. now right.
Qed.

Lemma groupby_last_elem rows r :
  r ∈ groupby_last rows <-> last (group (parameter r) rows) = Some r.
Proof.
  unfold groupby_last. rewrite list_elem_of_omap. split.
  - intros (k & _ & Hk). pose proof Hk as Hk'.
    apply last_Some_elem_of, list_elem_of_filter in Hk' as [<- _]. exact Hk.
  - intros Hr. exists (parameter r). split; [| exact Hr].
    apply group_keys_elem. exists r. split; [| reflexivity].
    apply last_Some_elem_of, list_elem_of_filter in Hr. tauto.
Qed.

(** In a sorted frame without ties the last row of a group is the one
    latest row of its parameter. *)
Lemma last_group_is_latest rows r :
  StronglySorted earlier_eq rows ->
  last (group (parameter r) rows) = Some r -> is_latest rows r.
Proof.
  intros Hsorted Hlast.
  destruct (last_group_latest _ _ _ Hsorted Hlast) as (_ & Hr & Hmax).
  split; assumption.
Qed.

Lemma is_latest_last_group rows r :
  StronglySorted earlier_eq rows ->
  (forall x y, x ∈ rows -> y ∈ rows -> parameter x = parameter y ->
               datetime_utc x = datetime_utc y -> x = y) ->
  is_latest rows r -> last (group (parameter r) rows) = Some r.
Proof.
  intros Hsorted Hties [Hr Hmax].
  destruct (groupby_last_group rows r Hr) as (r' & Hlast & _).
  rewrite Hlast. f_equal.
  destruct (last_group_latest _ _ _ Hsorted Hlast) as (Hk & Hr' & Hmax').
  apply Hties; try assumption.
  apply Z.le_antisymm; [apply Hmax | apply Hmax']; auto.
Qed.

Lemma renamed_no_ties rows :
  no_ties rows ->
  forall x y, x ∈ rename_parameter <$> rows -> y ∈ rename_parameter <$> rows ->
              parameter x = parameter y -> datetime_utc x = datetime_utc y ->
              x = y.
Proof.
  intros Hties x y Hx Hy Hp Ht.
  apply list_elem_of_fmap in Hx as (x0 & -> & Hx0).
  apply list_elem_of_fmap in Hy as (y0 & -> & Hy0).
  f_equal. now apply Hties.
Qed.

(** The rows kept are the latest rows of the renamed frame. *)
Lemma latest_data_elem rows r :
  no_ties rows ->
  r ∈ latest_data rows <-> is_latest (rename_parameter <$> rows) r.
Proof.
  intros Hties. unfold latest_data. rewrite groupby_last_elem.
  pose proof (sort_values_sorted (rename_parameter <$> rows)) as Hsorted.
  assert (Hiff : forall r', is_latest (sort_values (rename_parameter <$> rows)) r'
                            <-> is_latest (rename_parameter <$> rows) r').
  { intros r'. unfold is_latest. rewrite sort_values_elem.
    split; intros [? Hmax]; (split; [assumption |]); intros x Hx;
      apply Hmax; now apply sort_values_elem. }
  rewrite <- Hiff. split.
  - now apply last_group_is_latest.
  - apply is_latest_last_group; [assumption |].
    intros x y Hx Hy. apply (renamed_no_ties rows Hties);
      now apply sort_values_elem.
Qed.


End LatestFrame.

(** X7: the frame of latest readings holds one row per parameter: its
    parameter column has no duplicates, ascends in string order, lists
    exactly the renamed parameters of the fetched readings, and is never
    longer than the fetched frame. *)
Theorem latest_data_one_row_per_parameter (location_data : list Reading) :
  NoDup (parameter <$> latest_data location_data) /\
  StronglySorted string_le (parameter <$> latest_data location_data) /\
  (forall k, k ∈ parameter <$> latest_data location_data <->
             exists x, x ∈ location_data /\ map_parameter (parameter x) = k) /\
  (length (latest_data location_data) <= length location_data)%nat.
Proof.
  unfold latest_data. rewrite groupby_last_parameters.
  set (S := sort_values (rename_parameter <$> location_data)).
  split; [apply group_keys_NoDup |].
  split; [apply group_keys_sorted |].
  split.
  - intros k. rewrite group_keys_elem. split.
    + intros (r & Hr & Hk). apply sort_values_elem, list_elem_of_fmap in Hr
        as (x & -> & Hx). eauto.
    + intros (x & Hx & Hk). exists (rename_parameter x).
      split; [| exact Hk]. apply sort_values_elem, list_elem_of_fmap. eauto.
  - rewrite <- (length_fmap parameter), groupby_last_parameters.
    transitivity (length (parameter <$> S)).
    + apply submseteq_length, NoDup_submseteq; [apply group_keys_NoDup |].
      intros k Hk. apply group_keys_elem in Hk as (r & Hr & <-).
      apply list_elem_of_fmap. eauto.
    + unfold S, sort_values.
      now rewrite length_fmap, merge_sort_Permutation, length_fmap.
Qed.

(** X8: when no two readings of a parameter share a timestamp, the rows
    kept are exactly the latest rows: a row is kept if and only if it is a
    renamed reading of the frame that no reading of its parameter
    follows in time. *)
Theorem latest_data_exactly_latest (location_data : list Reading) (r : Reading) :
  no_ties location_data ->
  (r ∈ latest_data location_data <->
   is_latest (rename_parameter <$> location_data) r).
Proof. apply latest_data_elem. Qed.

Lemma latest_data_exactly_latest_witness :
  mkReading 5 "CO" 900 "ppb" 2 ∈
    latest_data [ mkReading 5 "co" 900 "ppb" 2; mkReading 4 "co" 700 "ppb" 2 ].
Proof.
  apply (latest_data_exactly_latest
           [ mkReading 5 "co" 900 "ppb" 2; mkReading 4 "co" 700 "ppb" 2 ]).
  - intros x y Hx Hy _ Ht.
    apply elem_of_cons in Hx as [-> | Hx]; apply elem_of_cons in Hy as [-> | Hy];
      try apply list_elem_of_singleton in Hx as ->;
      try apply list_elem_of_singleton in Hy as ->;
      solve [reflexivity | discriminate Ht].
  - split; [left |].
    intros x Hx _.
    apply elem_of_cons in Hx as [-> | Hx]; [simpl; lia |].
    apply list_elem_of_singleton in Hx as ->. simpl. lia.
Defined.





(** ** The panel of a fetched frame *)

Section Panel.

Lemma latest_data_nonempty (a : Reading) (rows : list Reading) :
  latest_data (a :: rows) <> [].
Proof.
  assert (Hk : map_parameter (parameter a) ∈ parameter <$> latest_data (a :: rows)).
  { unfold latest_data. rewrite groupby_last_parameters.
    apply group_keys_elem. exists (rename_parameter a).
    split; [| reflexivity].
    apply sort_values_elem, list_elem_of_fmap. exists a. split; [reflexivity | left]. }
  intros Hnil. rewrite Hnil in Hk. now apply elem_of_nil in Hk.
Qed.

(** The panel of a non-empty frame, spelled out. *)
Lemma update_info_panel_nonempty (location_data : list Reading) :
  location_data <> [] ->
  exists m,
    update_info_panel location_data =
      Return (Some (mkAqiResult (subindex_of <$> latest_data location_data) m
                      (get_aqi_category m).1 (get_aqi_category m).2)) /\
    m ∈ subindex_of <$> latest_data location_data /\
    forall y, y ∈ subindex_of <$> latest_data location_data -> y <= m.
Proof.
  destruct location_data as [| a rows]; [congruence | intros _].
  assert (Hne : subindex_of <$> latest_data (a :: rows) <> []).
  { pose proof (latest_data_nonempty a rows).
    destruct (latest_data (a :: rows)); [congruence | discriminate]. }
  destruct (series_max_greatest _ Hne) as (m & Hm & Hin & Hub).
  exists m. split; [apply (resolve_returns _ m Hm) |]. auto.
Qed.

Lemma subindex_of_range (row : Reading) : 0 <= subindex_of row <= 500.
Proof.
  pose proof (subindex_of_returns row) as Hret.
  destruct (subindex_total (value row) (parameter row)) as (n & Hn & Hr).
  rewrite Hn in Hret. injection Hret as <-. exact Hr.
Qed.

End Panel.

(** X11: the panel shows "No Data Available" exactly for the empty frame;
    for every other frame the computation does not raise, the overall AQI
    lies between 0 and 500 and bounds every sub-index, the column has one
    sub-index per latest row, and category and description are those of
    the overall AQI. *)
Theorem update_info_panel_data (location_data : list Reading) :
  (location_data = [] /\ update_info_panel location_data = Return None) \/
  (location_data <> [] /\
   exists r, update_info_panel location_data = Return (Some r) /\
             0 <= current_aqi r <= 500 /\
             length (aqi_subindex r) = length (latest_data location_data) /\
             (forall x, x ∈ aqi_subindex r -> 0 <= x <= current_aqi r) /\
             (category r, description r) = get_aqi_category (current_aqi r)).
Proof.
  destruct location_data as [| a rows]; [left; split; reflexivity | right].
  split; [discriminate |].
  destruct (update_info_panel_nonempty (a :: rows)) as (m & Hpanel & Hin & Hub);
    [discriminate |].
  eexists. split; [exact Hpanel |]. simpl.
  assert (Hrange : forall x, x ∈ subindex_of <$> latest_data (a :: rows) ->
                             0 <= x <= 500).
  { intros x Hx. apply list_elem_of_fmap in Hx as (row & -> & _).
    apply subindex_of_range. }
  split; [apply Hrange, Hin |].
  split; [apply length_fmap |].
  split.
  - intros x Hx. specialize (Hrange x Hx). specialize (Hub x Hx). lia.
  - now destruct (get_aqi_category m).
Qed.

(** ** API keys and the sensor catalog *)

Section StartUp.

Lemma collect_keys_omap (getenv : string -> option string)
    (acc : list string) (idxs : list nat) :
  foldl (fun api_keys i =>
           match getenv (api_key_name i) with
           | Some key => if String.eqb key "" then api_keys else (api_keys ++ [key])%list
           | None => api_keys
           end) acc idxs =
  (acc ++ omap (fun i => match getenv (api_key_name i) with
                         | Some key => if String.eqb key "" then None else Some key
                         | None => None
                         end) idxs)%list.
Proof.
  revert acc. induction idxs as [| i idxs IH]; intros acc; simpl.
  - now rewrite app_nil_r.
  - rewrite IH. destruct (getenv (api_key_name i)) as [key |]; [| reflexivity].
    destruct (String.eqb key ""); [reflexivity |].
    now rewrite <- app_assoc.
Qed.

Lemma load_api_keys_omap (getenv : string -> option string) :
  load_api_keys getenv =
    omap (fun i => match getenv (api_key_name i) with
                   | Some key => if String.eqb key "" then None else Some key
                   | None => None
                   end) (seq 1 11).
Proof. unfold load_api_keys. now rewrite collect_keys_omap. Qed.

Lemma length_omap_le {A B : Type} (f : A -> option B) (l : list A) :
  (length (omap f l) <= length l)%nat.
Proof.
  induction l as [| x l IH]; csimpl; [lia |].
  destruct (f x); csimpl; lia.
Qed.

Lemma foldl_insert_lookup (sensors : list Sensor) (m : gmap Z SensorInfo) (id : Z) :
  foldl (fun m sensor => <[sensorid sensor := sensor_info sensor]> m) m sensors !! id =
    match last (filter (fun s => sensorid s = id) sensors) with
    | Some s => Some (sensor_info s)
    | None => m !! id
    end.
Proof.
  revert m. induction sensors as [| s sensors IH]; intros m; [reflexivity |].
  simpl. rewrite IH, filter_cons.
  destruct (decide (sensorid s = id)) as [<- | Hne].
  - rewrite last_cons.
    destruct (last (filter _ sensors)); [reflexivity |].
    apply lookup_insert_eq.
  - destruct (last (filter _ sensors)); [reflexivity |].
    now apply lookup_insert_ne.
Qed.

Lemma build_sensor_parameters_concat (data : list (list Sensor)) (m : gmap Z SensorInfo) :
  foldl (fun m sensors =>
           foldl (fun m sensor => <[sensorid sensor := sensor_info sensor]> m)
                 m sensors) m data =
  foldl (fun m sensor => <[sensorid sensor := sensor_info sensor]> m) m (concat data).
Proof.
  revert m. induction data as [| sensors data IH]; intros m; [reflexivity |].
  simpl. now rewrite IH, foldl_app.
Qed.

End StartUp.

(** X12: the list of API keys holds exactly the non-empty values of the
    variables OPENAQ_API_KEY_1 to OPENAQ_API_KEY_11, so at most eleven
    keys; unset and empty variables are skipped. *)
Theorem load_api_keys_spec (getenv : string -> option string) (key : string) :
  (key ∈ load_api_keys getenv <->
   key <> "" /\ exists i, (1 <= i <= 11)%nat /\ getenv (api_key_name i) = Some key) /\
  (length (load_api_keys getenv) <= 11)%nat.
Proof.
  rewrite load_api_keys_omap. split.
  - rewrite list_elem_of_omap. split.
    + intros (i & Hi & Hkey). apply elem_of_seq in Hi.
      destruct (getenv (api_key_name i)) as [k |] eqn:Hk; [| discriminate].
      destruct (String.eqb_spec k ""); [discriminate |].
      injection Hkey as ->. split; [assumption |].
      exists i. split; [lia | assumption].
    + intros (Hne & i & Hi & Hk). exists i.
      split; [apply elem_of_seq; lia |].
      rewrite Hk. destruct (String.eqb_spec key ""); congruence.
  - etransitivity; [apply length_omap_le |]. reflexivity.
Qed.

(** X13: the sensor catalog maps an id to the entry of the last sensor of
    the data file with that id, locations and sensors taken in file
    order; an id that no sensor carries is not in the catalog. *)
Theorem build_sensor_parameters_lookup (sensor_parameters_data : list (list Sensor))
    (id : Z) :
  build_sensor_parameters sensor_parameters_data !! id =
    sensor_info <$> last (filter (fun s => sensorid s = id)
                            (concat sensor_parameters_data)).
Proof.
  unfold build_sensor_parameters.
  rewrite build_sensor_parameters_concat, foldl_insert_lookup.
  destruct (last _); [reflexivity | apply lookup_empty].
Qed.

(** ** Fetching *)

Section Fetch.

Variable http_get : string -> Z -> Response.
Variable sensor_parameters : gmap Z SensorInfo.

Lemma select_api_key_returns (api_keys : list string) (api_index : Z) :
  api_keys <> [] ->
  exists key, select_api_key api_keys api_index = Return key /\ key ∈ api_keys.
Proof.
  intros Hne. unfold select_api_key.
  destruct api_keys as [| k0 keys]; [congruence |].
  set (l := k0 :: keys). change (Nat.eqb (length l) 0) with false. cbv iota.
  assert (Hlen : 0 < Z.of_nat (length l)) by (unfold l; simpl; lia).
  pose proof (Z.mod_pos_bound api_index _ Hlen) as Hmod.
  destruct (l !! Z.to_nat (api_index mod Z.of_nat (length l))) as [key |] eqn:Hkey.
  - exists key. split; [reflexivity |]. eapply list_elem_of_lookup_2; eauto.
  - apply lookup_ge_None in Hkey. lia.
Qed.

Lemma fetch_rows (api_keys : list string) (api_index now loc : Z) :
  api_keys <> [] ->
  exists key, key ∈ api_keys /\
    fetch_location_data http_get api_keys sensor_parameters api_index now loc =
      Return (match http_get key loc with
              | RequestException => []
              | Json results =>
                  omap (fun result =>
                          if bool_decide (date (result_utc result) = date now)
                             || bool_decide (date (result_utc result) = date now - 1)
                          then Some (result_row sensor_parameters result)
                          else None)
                       (default [] results)
              end).
Proof.
  intros Hne.
  destruct (select_api_key_returns api_keys api_index Hne) as (key & Hkey & Hin).
  exists key. split; [exact Hin |].
  unfold fetch_location_data. rewrite Hkey. cbn [mbind outcome_bind].
  now destruct (http_get key loc).
Qed.

End Fetch.

(** X14: without any API key the fetch raises ZeroDivisionError, whatever
    the request would yield; with at least one key it returns for every
    draw of the index, with at most one row per result of the response,
    and with no row when the request fails. *)
Theorem fetch_location_data_outcome (http_get : string -> Z -> Response)
    (api_keys : list string) (sensor_parameters : gmap Z SensorInfo)
    (api_index now loc : Z) :
  (api_keys = [] /\
   fetch_location_data http_get api_keys sensor_parameters api_index now loc
     = Raise ZeroDivisionError) \/
  (api_keys <> [] /\
   exists key rows,
     key ∈ api_keys /\
     fetch_location_data http_get api_keys sensor_parameters api_index now loc
       = Return rows /\
     match http_get key loc with
     | RequestException => rows = []
     | Json results => (length rows <= length (default [] results))%nat
     end).
Proof.
  destruct api_keys as [| k0 keys]; [left; split; reflexivity | right].
  split; [discriminate |].
  destruct (fetch_rows http_get sensor_parameters (k0 :: keys) api_index now loc)
    as (key & Hin & Hfetch); [discriminate |].
  exists key. eexists. split; [exact Hin |]. split; [exact Hfetch |].
  destruct (http_get key loc); [reflexivity | apply length_omap_le].
Qed.

(** X15: every row of a fetched frame is fresh: its day is the current
    UTC day or the day before, so it is less than two days old and less
    than one day ahead of the clock, and it is the row of a result of the
    response. *)
Theorem fetch_location_data_fresh (http_get : string -> Z -> Response)
    (api_keys : list string) (sensor_parameters : gmap Z SensorInfo)
    (api_index now loc : Z) (rows : list Reading) (r : Reading) :
  fetch_location_data http_get api_keys sensor_parameters api_index now loc
    = Return rows ->
  r ∈ rows ->
  (date (datetime_utc r) = date now \/ date (datetime_utc r) = date now - 1) /\
  now - datetime_utc r < 2 * 86400000000 /\
  datetime_utc r - now < 86400000000 /\
  exists key results result,
    http_get key loc = Json (Some results) /\ result ∈ results /\
    r = result_row sensor_parameters result.
Proof.
  intros Hfetch Hr.
  destruct api_keys as [| k0 keys]; [discriminate |].
  destruct (fetch_rows http_get sensor_parameters (k0 :: keys) api_index now loc)
    as (key & _ & Hrows); [discriminate |].
  rewrite Hrows in Hfetch. injection Hfetch as <-.
  destruct (http_get key loc) as [| [results |]] eqn:Hget;
    try (now apply elem_of_nil in Hr).
  simpl in Hr. apply list_elem_of_omap in Hr as (result & Hres & Hrow).
  destruct (bool_decide (date (result_utc result) = date now)
            || bool_decide (date (result_utc result) = date now - 1)) eqn:Hd;
    [| discriminate].
  injection Hrow as <-. simpl.
  apply orb_true_iff in Hd.
  rewrite !bool_decide_eq_true in Hd.
  split; [exact Hd |].
  unfold date in *.
  split; [| split].
  - destruct Hd as [Hd | Hd]; Z.div_mod_to_equations; lia.
  - destruct Hd as [Hd | Hd]; Z.div_mod_to_equations; lia.
  - exists key, results, result. auto.
Qed.

Lemma fetch_location_data_fresh_witness :
  864000000100 - datetime_utc (mkReading 864000000005 "unknown" 30 "N/A" 7)
    < 2 * 86400000000.
Proof.
  destruct (fetch_location_data_fresh
              (fun _ _ => Json (Some [ mkApiResult 864000000005 7 30;
                                       mkApiResult 5 7 30 ]))
              [ "key" ] ∅ 3 864000000100 42
              [ mkReading 864000000005 "unknown" 30 "N/A" 7 ]
              (mkReading 864000000005 "unknown" 30 "N/A" 7))
    as (_ & Hage & _).
  - vm_compute. reflexivity.
  - left.
  - exact Hage.
Defined.

(** ** The callback *)

Section Callback.

Variable http_get : string -> Z -> Response.
Variable sensor_parameters : gmap Z SensorInfo.

Lemma location_row_known (locations_df : list Location) (l : Location) :
  l ∈ locations_df ->
  exists row, location_row locations_df (location_name l) = Return row /\
              row ∈ locations_df /\ location_name row = location_name l.
Proof.
  intros Hl. unfold location_row.
  destruct (filter _ locations_df) as [| row rest] eqn:Hf.
  - exfalso. eapply filter_nil_not_elem_of; [exact Hf | | exact Hl]. reflexivity.
  - exists row. split; [reflexivity |].
    assert (Hrow : row ∈ filter (fun l0 => location_name l0 = location_name l) locations_df)
      by (rewrite Hf; left).
    apply list_elem_of_filter in Hrow. tauto.
Qed.

Lemma location_row_unknown (locations_df : list Location) (name : string) :
  (forall l, l ∈ locations_df -> location_name l <> name) ->
  location_row locations_df name = Raise IndexError.
Proof.
  intros Hno. unfold location_row.
  destruct (filter _ locations_df) as [| row rest] eqn:Hf; [reflexivity |].
  assert (Hrow : row ∈ filter (fun l0 => location_name l0 = name) locations_df)
    by (rewrite Hf; left).
  apply list_elem_of_filter in Hrow as [Hname Hin].
  now destruct (Hno row Hin).
Qed.

Lemma default_location_named (locations_df : list Location) (name : string) :
  name <> "" -> default_location locations_df (Some name) = Return name.
Proof.
  intros Hne. unfold default_location.
  destruct (String.eqb_spec name ""); congruence.
Qed.

End Callback.

(** X16: with at least one API key and a selected location of the list,
    the callback returns for every response: the title is the selected
    name, a failed request gives the panel "No Data Available", and an
    overall AQI shown lies between 0 and 500. *)
Theorem callback_returns (http_get : string -> Z -> Response)
    (api_keys : list string) (sensor_parameters : gmap Z SensorInfo)
    (locations_df : list Location) (api_index now : Z) (l : Location) :
  api_keys <> [] -> l ∈ locations_df -> location_name l <> "" ->
  exists p,
    update_info_panel_callback http_get api_keys sensor_parameters locations_df
      api_index now (Some (location_name l))
    = Return (mkInfoPanel (location_name l) p) /\
    ((forall key id, http_get key id = RequestException) -> p = None) /\
    (forall r, p = Some r -> 0 <= current_aqi r <= 500).
Proof.
  intros Hkeys Hl Hname. unfold update_info_panel_callback.
  rewrite (default_location_named _ _ Hname). cbn [mbind outcome_bind].
  destruct (location_row_known _ _ Hl) as (row & -> & _ & _).
  cbn [mbind outcome_bind].
  destruct (fetch_rows http_get sensor_parameters api_keys api_index now
              (location_id row) Hkeys) as (key & _ & ->).
  cbn [mbind outcome_bind].
  set (rows := match http_get key (location_id row) with
               | RequestException => []
               | Json results => _
               end).
  assert (Hfail : (forall key id, http_get key id = RequestException) -> rows = []).
  { intros Hall. unfold rows. now rewrite Hall. }
  clearbody rows.
  destruct rows as [| a rows].
  - exists None. split; [reflexivity |]. split; [reflexivity | discriminate].
  - destruct (update_info_panel_nonempty (a :: rows)) as (m & -> & Hin & _);
      [discriminate |].
    eexists. split; [reflexivity |]. split.
    + intros Hall. now specialize (Hfail Hall).
    + intros r [= <-]. simpl.
      apply list_elem_of_fmap in Hin as (x & -> & _). apply subindex_of_range.
Qed.

Lemma callback_returns_witness :
  exists p,
    update_info_panel_callback (fun _ _ => RequestException) [ "key" ] ∅
      [ mkLocation 42 "Anand Vihar" ] 3 864000000100 (Some "Anand Vihar")
    = Return (mkInfoPanel "Anand Vihar" p) /\ p = None.
Proof.
  destruct (callback_returns (fun _ _ => RequestException) [ "key" ] ∅
              [ mkLocation 42 "Anand Vihar" ] 3 864000000100
              (mkLocation 42 "Anand Vihar"))
    as (p & Hp & Hfail & _).
  - discriminate.
  - left.
  - discriminate.
  - exists p. split; [exact Hp |]. apply Hfail. reflexivity.
Defined.

(** X17: a selected name that no location of the list carries makes the
    callback raise IndexError, before any request is sent and whatever
    the keys and the response are. *)
Theorem callback_unknown_location (http_get : string -> Z -> Response)
    (api_keys : list string) (sensor_parameters : gmap Z SensorInfo)
    (locations_df : list Location) (api_index now : Z) (name : string) :
  name <> "" ->
  (forall l, l ∈ locations_df -> location_name l <> name) ->
  update_info_panel_callback http_get api_keys sensor_parameters locations_df
    api_index now (Some name)
  = Raise IndexError.
Proof.
  intros Hname Hno. unfold update_info_panel_callback.
  rewrite (default_location_named _ _ Hname). cbn [mbind outcome_bind].
  now rewrite (location_row_unknown _ _ Hno).
Qed.

Lemma callback_unknown_location_witness :
  update_info_panel_callback (fun _ _ => Json None) [ "key" ] ∅
    [ mkLocation 42 "Anand Vihar" ] 3 864000000100 (Some "Rohini")
  = Raise IndexError.
Proof.
  apply (callback_unknown_location (fun _ _ => Json None) [ "key" ] ∅
           [ mkLocation 42 "Anand Vihar" ] 3 864000000100 "Rohini").
  - discriminate.
  - intros l Hl. apply list_elem_of_singleton in Hl as ->. discriminate.
Defined.

(** X18: no selection, or the empty selection, is the selection of the
    first location of the list: the callback gives the same outcome. *)
Theorem callback_default_selection (http_get : string -> Z -> Response)
    (api_keys : list string) (sensor_parameters : gmap Z SensorInfo)
    (l : Location) (rest : list Location) (api_index now : Z) :
  update_info_panel_callback http_get api_keys sensor_parameters (l :: rest)
    api_index now None
  = update_info_panel_callback http_get api_keys sensor_parameters (l :: rest)
      api_index now (Some (location_name l)) /\
  update_info_panel_callback http_get api_keys sensor_parameters (l :: rest)
    api_index now (Some "")
  = update_info_panel_callback http_get api_keys sensor_parameters (l :: rest)
      api_index now (Some (location_name l)).
Proof.
  unfold update_info_panel_callback, default_location. simpl.
  destruct (String.eqb_spec (location_name l) "") as [-> | _]; split; reflexivity.
Qed.

(** ** Sensors outside the catalog *)

Section Uncatalogued.

Variable http_get : string -> Z -> Response.
Variable sensor_parameters : gmap Z SensorInfo.

Lemma fetch_row_origin (api_keys : list string) (api_index now loc : Z)
    (rows : list Reading) (r : Reading) :
  fetch_location_data http_get api_keys sensor_parameters api_index now loc
    = Return rows ->
  r ∈ rows -> exists result, r = result_row sensor_parameters result.
Proof.
  intros Hfetch Hr.
  destruct api_keys as [| k0 keys]; [discriminate |].
  destruct (fetch_rows http_get sensor_parameters (k0 :: keys) api_index now loc)
    as (key & _ & Hrows); [discriminate |].
  rewrite Hrows in Hfetch. injection Hfetch as <-.
  destruct (http_get key loc) as [| results]; [now apply elem_of_nil in Hr |].
  apply list_elem_of_omap in Hr as (result & _ & Hrow).
  destruct (_ || _); [| discriminate].
  injection Hrow as <-. eauto.
Qed.

Lemma latest_data_from_rows (rows : list Reading) (x : Reading) :
  x ∈ latest_data rows -> x ∈ rename_parameter <$> rows.
Proof.
  unfold latest_data. intros Hx. apply groupby_last_elem in Hx.
  apply last_Some_elem_of, list_elem_of_filter in Hx as [_ Hx].
  exact (proj1 (sort_values_elem _ _) Hx).
Qed.

End Uncatalogued.

(** X19: when none of the sensors of a fetched frame is in the catalog,
    every row carries the parameter unknown and the panel of a non-empty
    frame shows the overall AQI 0 with the category "Good". *)
Theorem uncatalogued_sensors_read_good (http_get : string -> Z -> Response)
    (api_keys : list string) (sensor_parameters : gmap Z SensorInfo)
    (api_index now loc : Z) (rows : list Reading) :
  fetch_location_data http_get api_keys sensor_parameters api_index now loc
    = Return rows ->
  rows <> [] ->
  (forall r, r ∈ rows -> sensor_parameters !! sensor_id r = None) ->
  (forall r, r ∈ rows -> parameter r = "unknown") /\
  exists res, update_info_panel rows = Return (Some res) /\
              current_aqi res = 0 /\ category res = "Good".
Proof.
  intros Hfetch Hne Hnone.
  assert (Hunknown : forall r, r ∈ rows -> parameter r = "unknown").
  { intros r Hr. pose proof (Hnone r Hr) as Hno.
    destruct (fetch_row_origin http_get sensor_parameters _ _ _ _ _ _ Hfetch Hr)
      as (result & ->).
    unfold result_row in *. simpl in *. now rewrite Hno. }
  split; [exact Hunknown |].
  destruct (update_info_panel_nonempty rows Hne) as (m & Hpanel & Hin & _).
  assert (Hm : m = 0).
  { apply list_elem_of_fmap in Hin as (x & -> & Hx).
    apply latest_data_from_rows, list_elem_of_fmap in Hx as (r & -> & Hr).
    unfold subindex_of, rename_parameter. simpl.
    rewrite (Hunknown r Hr). reflexivity. }
  subst m. eexists. split; [exact Hpanel |]. split; reflexivity.
Qed.

Lemma uncatalogued_sensors_read_good_witness :
  exists res,
    update_info_panel [ mkReading 864000000005 "unknown" 30 "N/A" 7 ]
      = Return (Some res) /\
    current_aqi res = 0 /\ category res = "Good".
Proof.
  destruct (uncatalogued_sensors_read_good
              (fun _ _ => Json (Some [ mkApiResult 864000000005 7 30 ]))
              [ "key" ] ∅ 3 864000000100 42
              [ mkReading 864000000005 "unknown" 30 "N/A" 7 ])
    as [_ H].
  - vm_compute. reflexivity.
  - discriminate.
  - intros r _. apply lookup_empty.
  - exact H.
Defined.

(** ** Colour of the category *)

(** X20: the colour of the category text is the colour of the gauge step
    that holds the overall AQI: for every step from lo to hi and every
    index value with lo < n <= hi, and for 0 in the first step, the
    colour looked up for the category of n is the colour of that step. *)
Theorem category_color_matches_gauge (n lo hi : Z) (c : string) :
  (lo, hi, c) ∈ gauge_steps ->
  lo < n <= hi \/ (n = 0 /\ lo = 0) ->
  category_color (get_aqi_category n).1 = c.
Proof.
  intros Hstep Hn. unfold gauge_steps in Hstep.
  repeat (apply elem_of_cons in Hstep as [[= -> -> ->] | Hstep];
          [destruct (get_aqi_category_cases n)
             as [[? ->] | [[? ->] | [[? ->] | [[? ->] | [[? ->] | [? ->]]]]]];
           solve [vm_compute; reflexivity | lia] |]).
  now apply elem_of_nil in Hstep.
Qed.

Lemma category_color_matches_gauge_witness :
  100 < 150 <= 150 /\ category_color (get_aqi_category 150).1 = "orange".
Proof.
  split; [lia |].
  apply (category_color_matches_gauge 150 100 150 "orange").
  - vm_compute. right. right. left.
  - left. lia.
Defined.
